(** * raml2html: the orchestrator and its default configuration

    A shallow embedding of [index.js].  The file has two layers.

    - [Data]: the immutable, JSON-like values that the templates hand to the
      two helpers the default renderer installs on the RAML object
      ([securitySchemeWithName], [renderSecuredBy]), together with the
      property reads and coercions of the language those helpers rely on;
      what depends on the runtime is a field of the class [Runtime].
    - [Pipeline]: a store of mutable objects with references, promises as
      settled outcomes, and the functions [render], [getDefaultConfig] and the
      two default callables; the libraries the module imports are the fields
      of the class [Collaborators]. *)

From Stdlib Require Import Ascii String ZArith.
From stdpp Require Import gmap strings list pretty.
From Equations Require Import Equations.

(** The one-character string holding a double quote (code unit 34). *)
Definition dquote : string := String (Ascii.ascii_of_nat 34) EmptyString.

(** ** Text *)

Module Text.

(** [s.startsWith(p)] on code units. *)
Fixpoint starts_with (p s : string) : bool :=
  match p, s with
  | EmptyString, _ => true
  | String a p', String b s' => if Ascii.eqb a b then starts_with p' s' else false
  | String _ _, EmptyString => false
  end.

(** Drop the first [n] code units. *)
Fixpoint skip (n : nat) (s : string) : string :=
  match n, s with
  | 0, _ => s
  | S n', String _ s' => skip n' s'
  | S _, EmptyString => EmptyString
  end.

(** [s.replace(/p/g, r)] for a literal, non-empty pattern [String p0 p]:
    matches are found left to right and do not overlap; the text between
    matches is copied. *)
Equations replace_all (p0 : ascii) (p : string) (r : string) (s : string)
  : string by wf (String.length s) lt :=
  replace_all p0 p r EmptyString := EmptyString;
  replace_all p0 p r (String c s') :=
    if starts_with (String p0 p) (String c s')
    then r +:+ replace_all p0 p r (skip (String.length p) s')
    else String c (replace_all p0 p r s').
Next Obligation.
  enough (∀ n t, (String.length (skip n t) <= String.length t)%nat) as Hskip
    by (specialize (Hskip (String.length p) s'); lia).
  clear; induction n as [|n IH]; intros [|c t]; simpl; try lia.
  specialize (IH t); lia.
Qed.

(** [p] occurs in [s] as a contiguous run of code units. *)
Definition occurs (p s : string) : Prop :=
  ∃ pre post, s = pre +:+ p +:+ post.

(** Executable counterpart of [occurs]. *)
Fixpoint occursb (p s : string) : bool :=
  starts_with p s ||
  match s with
  | EmptyString => false
  | String _ s' => occursb p s'
  end.

(** The strings of a list put end to end. *)
Fixpoint concat (l : list string) : string :=
  match l with
  | [] => EmptyString
  | s :: l' => s +:+ concat l'
  end.

(** The character [q] is not in [w]. *)
Fixpoint absent (q : ascii) (w : string) : Prop :=
  match w with
  | EmptyString => True
  | String a w' => a ≠ q ∧ absent q w'
  end.

End Text.

(** The global replacement the default renderer applies to the template
    output: [html.replace(/&quot;/g, q)] with [q] the double-quote character. *)
Definition unescape_quotes (html : string) : string :=
  Text.replace_all "&" "quot;" dquote html.

(** ** Plain data and the helpers installed on the RAML object *)

Module Data.

(** The values the parser produces and the templates pass around: JSON-like
    trees, plus [undefined].  Numbers are the integer-valued ones.  An object
    lists its own enumerable properties in enumeration order; a well-formed
    object has no repeated key.  Properties hold data: functions are met
    only as the built-in members of the prototypes (see [member]). *)
#[warnings="-register-all"]
Inductive value : Type :=
| VUndefined
| VNull
| VBool (b : bool)
| VNum (n : Z)
| VStr (s : string)
| VArr (items : list value)
| VObj (props : list (string * value)).

(** The only exception the helpers can raise. *)
Inductive exn : Type := TypeError.

Inductive result (A : Type) : Type :=
| Ret (a : A)
| Throw (e : exn).
Arguments Ret {A} a.
Arguments Throw {A} e.

(** Sequencing that stops at the first exception. *)
#[global] Instance result_bind : MBind result := λ A B k r,
  match r with
  | Ret a => k a
  | Throw e => Throw e
  end.

(** ToBoolean *)
Definition truthy (v : value) : bool :=
  match v with
  | VUndefined | VNull => false
  | VBool b => b
  | VNum n => negb (n =? 0)%Z
  | VStr s => negb (String.eqb s "")
  | VArr _ | VObj _ => true
  end.

(** [typeof v === 'object'] *)
Definition typeof_object (v : value) : bool :=
  match v with
  | VNull | VArr _ | VObj _ => true
  | _ => false
  end.

(** [arr.join(sep)] on already converted elements. *)
Fixpoint join (sep : string) (l : list string) : string :=
  match l with
  | [] => ""
  | [s] => s
  | s :: l' => s +:+ sep +:+ join sep l'
  end.

(** Own property of a plain object. *)
Fixpoint lookup_prop (name : string) (props : list (string * value)) : option value :=
  match props with
  | [] => None
  | (k, v) :: props' => if String.eqb k name then Some v else lookup_prop name props'
  end.

(** The array index a property name denotes, among the first [n]. *)
Definition index_of_key (name : string) (n : nat) : option nat :=
  List.find (λ i, String.eqb (pretty i) name) (seq 0 n).

(** The code unit at position [i] of a string, as a one-character string. *)
Fixpoint char_at (s : string) (i : nat) : option string :=
  match s, i with
  | EmptyString, _ => None
  | String c _, 0 => Some (String c EmptyString)
  | String _ s', S i' => char_at s' i'
  end.

Definition or_undefined (o : option value) : value :=
  match o with
  | Some v => v
  | None => VUndefined
  end.

(** [v.name] where [name] is one of [securitySchemes], [scopes] and
    [length], which no built-in prototype holds, or a key of [v] that passed
    the ownership test of line 85: the own property, or [undefined]. *)
Definition get_prop (v : value) (name : string) : result value :=
  match v with
  | VUndefined | VNull => Throw TypeError
  | VObj props => Ret (or_undefined (lookup_prop name props))
  | VArr items =>
      if String.eqb name "length" then Ret (VNum (Z.of_nat (length items)))
      else Ret (or_undefined (i ← index_of_key name (length items); items !! i))
  | VStr s =>
      if String.eqb name "length" then Ret (VNum (Z.of_nat (String.length s)))
      else Ret (or_undefined
                  (i ← index_of_key name (String.length s); VStr <$> char_at s i))
  | VBool _ | VNum _ => Ret VUndefined
  end.

(** [v[index]] for a loop counter; no built-in prototype holds an index. *)
Definition get_index (v : value) (index : nat) : result value :=
  match v with
  | VUndefined | VNull => Throw TypeError
  | VObj props => Ret (or_undefined (lookup_prop (pretty index) props))
  | VArr items => Ret (or_undefined (items !! index))
  | VStr s => Ret (or_undefined (VStr <$> char_at s index))
  | VBool _ | VNum _ => Ret VUndefined
  end.

(** The keys a [for (key in v)] loop visits, for [v] with
    [typeof v === 'object']. *)
Definition for_in_keys (v : value) : list string :=
  match v with
  | VObj props => map fst props
  | VArr items => map pretty (seq 0 (length items))
  | _ => []
  end.

(** The built-in [Object.prototype.hasOwnProperty], applied to [v] and
    [key]. *)
Definition has_own_property (v : value) (key : string) : bool :=
  match v with
  | VObj props => bool_decide (is_Some (lookup_prop key props))
  | VArr items =>
      String.eqb key "length" || bool_decide (is_Some (index_of_key key (length items)))
  | _ => false
  end.

(** The own property [name] of a value, when it has one. *)
Definition own_prop (v : value) (name : string) : option value :=
  match v with
  | VObj props => lookup_prop name props
  | VArr items =>
      if String.eqb name "length" then Some (VNum (Z.of_nat (length items)))
      else i ← index_of_key name (length items); items !! i
  | VStr s =>
      if String.eqb name "length" then Some (VNum (Z.of_nat (String.length s)))
      else i ← index_of_key name (String.length s); VStr <$> char_at s i
  | _ => None
  end.

(** The names every value other than [undefined] and [null] finds on
    [Object.prototype], at the end of its prototype chain, when no own
    property has the name. *)
Definition object_prototype : list string :=
  ["constructor"; "hasOwnProperty"; "isPrototypeOf"; "propertyIsEnumerable";
   "toLocaleString"; "toString"; "valueOf"].

(** What a property read gives: a data value (an own property, or
    [undefined] when the name is found nowhere), or the built-in member the
    prototype chain of the receiver holds under the name.  Built-in members
    are functions or objects, hence truthy. *)
Inductive member : Type :=
| Value (v : value)
| Builtin (receiver : value) (name : string).

(** ToBoolean of what a property read gave. *)
Definition truthy_member (m : member) : bool :=
  match m with
  | Value v => truthy v
  | Builtin _ _ => true
  end.

(** All of a list of results, or the first exception. *)
Fixpoint collect {A : Type} (l : list (result A)) : result (list A) :=
  match l with
  | [] => Ret []
  | r :: l' => a ← r; rest ← collect l'; Ret (a :: rest)
  end.

(** What the helpers take from the runtime. *)
Class Runtime : Type := {
  (** The reading of a string as a number ([None] is NaN); it is only
      consulted when a [length] is not a number already. *)
  string_to_number : string → option Z;
  (** Whether the prototype chain of the receiver holds the name, for the
      names that are not in [object_prototype] (the members of
      [Array.prototype], [String.prototype] and the like). *)
  more_inherited : value → string → bool;
  (** The text of an integer of magnitude [10^21] or more, which is written
      with an exponent. *)
  exponent_form : Z → string
}.

Section Helpers.

Context `{!Runtime}.

(** Whether the prototype chain of [v] holds [name]. *)
Definition inherits (v : value) (name : string) : bool :=
  bool_decide (name ∈ object_prototype) || more_inherited v name.

(** [v[name]] for any name: the own property first, then the prototype
    chain. *)
Definition read (v : value) (name : string) : result member :=
  match v with
  | VUndefined | VNull => Throw TypeError
  | _ =>
      match own_prop v name with
      | Some x => Ret (Value x)
      | None => if inherits v name then Ret (Builtin v name) else Ret (Value VUndefined)
      end
  end.

(** The text of an integer-valued number. *)
Definition number_to_string (n : Z) : string :=
  if (Z.abs n <? 10 ^ 21)%Z then pretty n else exponent_form n.

(** The conversion to a string that concatenation applies.  An object is
    converted through its [toString] and [valueOf]: an own [toString]
    property, which holds data and cannot be called, leaves no way to a
    primitive. *)
Fixpoint to_string (v : value) : result string :=
  match v with
  | VUndefined => Ret "undefined"
  | VNull => Ret "null"
  | VBool true => Ret "true"
  | VBool false => Ret "false"
  | VNum n => Ret (number_to_string n)
  | VStr s => Ret s
  | VArr items =>
      texts ← collect (map (λ e, match e with
                                 | VUndefined | VNull => Ret ""
                                 | _ => to_string e
                                 end) items);
      Ret (join "," texts)
  | VObj props =>
      match lookup_prop "toString" props with
      | Some _ => Throw TypeError
      | None => Ret "[object Object]"
      end
  end.

(** ToNumber *)
Definition to_number (v : value) : result (option Z) :=
  match v with
  | VUndefined => Ret None
  | VNull => Ret (Some 0%Z)
  | VBool b => Ret (Some (if b then 1 else 0)%Z)
  | VNum n => Ret (Some n)
  | VStr s => Ret (string_to_number s)
  | VArr _ | VObj _ => text ← to_string v; Ret (string_to_number text)
  end.

(** The number of iterations of
    [for (var index = 0; index < len; ++index)]. *)
Definition loop_count (len : value) : result nat :=
  n ← to_number len;
  Ret (match n with
       | Some n => Z.to_nat n
       | None => 0
       end).

(** The loop of [securitySchemeWithName], from [index] on, with [count]
    iterations left. *)
Fixpoint scan_schemes (schemes : value) (name : string) (index count : nat)
  : result member :=
  match count with
  | 0 => Ret (Value VUndefined)
  | S count' =>
      entry ← get_index schemes index;
      found ← read entry name;
      if truthy_member found then Ret found
      else scan_schemes schemes name (S index) count'
  end.

(** [ramlObj.securitySchemeWithName] (index.js, lines 72-78); [ramlObj] is
    the object the closure reads [securitySchemes] from. *)
Definition securitySchemeWithName (ramlObj : value) (name : string) : result member :=
  schemes ← get_prop ramlObj "securitySchemes";
  len ← get_prop schemes "length";
  count ← loop_count len;
  scan_schemes schemes name 0 count.

(** The inner loop of [renderSecuredBy] (lines 89-91). *)
Fixpoint render_scopes (scopes : value) (index count : nat) (out : string)
  : result string :=
  match count with
  | 0 => Ret out
  | S count' =>
      scope ← get_index scopes index;
      text ← to_string scope;
      render_scopes scopes (S index) count' (out +:+ "<li>" +:+ text +:+ "</li>")
  end.

(** [securedBy.hasOwnProperty(key)] (line 85): the property is read, and
    what was read is called.  An own property of that name holds data, which
    cannot be called. *)
Definition own_key (securedBy : value) (key : string) : result bool :=
  method ← read securedBy "hasOwnProperty";
  match method with
  | Builtin _ _ => Ret (has_own_property securedBy key)
  | Value _ => Throw TypeError
  end.

(** One turn of the [for (var key in securedBy)] loop (lines 85-94). *)
Definition render_key (securedBy : value) (key : string) (out : string)
  : result string :=
  own ← own_key securedBy key;
  if own : bool then
    let out := out +:+ "<b>" +:+ key +:+ "</b>" in
    scheme ← get_prop securedBy key;
    scopes ← get_prop scheme "scopes";
    len ← get_prop scopes "length";
    if truthy len then
      count ← loop_count len;
      out ← render_scopes scopes 0 count (out +:+ " with scopes:<ul>");
      Ret (out +:+ "</ul>")
    else Ret out
  else Ret out.

Fixpoint render_keys (securedBy : value) (keys : list string) (out : string)
  : result string :=
  match keys with
  | [] => Ret out
  | key :: keys' =>
      out ← render_key securedBy key out;
      render_keys securedBy keys' out
  end.

(** [ramlObj.renderSecuredBy] (lines 81-100). *)
Definition renderSecuredBy (securedBy : value) : result string :=
  if typeof_object securedBy then render_keys securedBy (for_in_keys securedBy) ""
  else text ← to_string securedBy; Ret ("<b>" +:+ text +:+ "</b>").

End Helpers.

End Data.


(** ** The store, promises and the pipeline *)

Module Pipeline.

Definition loc := positive.

(** Values held in variables and properties; every object (plain object,
    function, error) lives in the store and is named by a reference. *)
Inductive val : Type :=
| Undef
| Null
| Bool (b : bool)
| Num (n : Z)
| Str (s : string)
| Ref (l : loc).

(** The state a promise ends in; [Pending] is the promise that never
    settles. *)
Inductive settled : Type :=
| Fulfilled (v : val)
| Rejected (e : val)
| Pending.

(** What a call hands back: a plain value or a promise. *)
Inductive returned : Type :=
| Plain (v : val)
| Promised (p : settled).

(** The two helpers the default renderer installs on the RAML object. *)
Inductive helper : Type := SecuritySchemeWithName | RenderSecuredBy.

(** Function bodies, with the variables a closure captured. *)
Inductive code : Type :=
| UserCode (n : nat)
| ProcessRamlObjCode (mainTemplate templatesPath : val)
| PostProcessHtmlCode
| HelperCode (f : helper).

Inductive kind : Type :=
| PlainObject
| FunctionObject (c : code)
| ErrorObject (name : string).

Record object : Type := Object { obj_kind : kind; obj_props : gmap string val }.

Abbreviation store := (gmap loc object).

Inductive completion (A : Type) : Type :=
| Normal (a : A)
| Throw (e : val).
Arguments Normal {A} a.
Arguments Throw {A} e.

(** Computations that read and write the store and may throw. *)
Definition M (A : Type) : Type := store → completion A * store.

#[global] Instance M_ret : MRet M := λ A a h, (Normal a, h).

#[global] Instance M_bind : MBind M := λ A B k m h,
  match m h with
  | (Normal a, h') => k a h'
  | (Throw e, h') => (Throw e, h')
  end.

(** ToBoolean *)
Definition truthy (v : val) : bool :=
  match v with
  | Undef | Null => false
  | Bool b => b
  | Num n => negb (n =? 0)%Z
  | Str s => negb (String.eqb s "")
  | Ref _ => true
  end.

(** [{}] *)
Definition empty_object : object := Object PlainObject ∅.

Definition function_object (c : code) : object := Object (FunctionObject c) ∅.

(** A newly created object gets a reference no object of the store has. *)
Definition alloc (o : object) : M val := λ h,
  let l := fresh (dom h) in (Normal (Ref l), <[l := o]> h).

(** A TypeError raised by the runtime. *)
Definition throw_type_error {A : Type} : M A := λ h,
  let l := fresh (dom h) in (Throw (Ref l), <[l := Object (ErrorObject "TypeError") ∅]> h).

(** The value of property [name] of the object at [l] ([undefined] when
    there is none). *)
Definition field (h : store) (l : loc) (name : string) : val :=
  default Undef (o ← h !! l; obj_props o !! name).

(** The body of the function a value refers to, if it is a function. *)
Definition fun_code (h : store) (v : val) : option code :=
  match v with
  | Ref l =>
      match obj_kind <$> h !! l with
      | Some (FunctionObject c) => Some c
      | _ => None
      end
  | _ => None
  end.

(** [v.name] *)
Definition get_prop (v : val) (name : string) : M val :=
  match v with
  | Undef | Null => throw_type_error
  | Ref l => λ h, (Normal (field h l name), h)
  | Bool _ | Num _ | Str _ => mret Undef
  end.

Definition with_prop (name : string) (x : val) (o : object) : object :=
  Object (obj_kind o) (<[name := x]> (obj_props o)).

(** [v.name = x] in strict mode: only objects take properties. *)
Definition set_prop (v : val) (name : string) (x : val) : M unit :=
  match v with
  | Ref l => λ h,
      match h !! l with
      | Some o => (Normal (), <[l := with_prop name x o]> h)
      | None => throw_type_error h
      end
  | _ => throw_type_error
  end.

(** The collaborators the module imports, and the runtime. *)
Class Collaborators : Type := {
  (** [pjson.version] and [__dirname]. *)
  version : string;
  dirname : string;
  (** [raml2obj.parse] *)
  raml2obj_parse : val → M returned;
  (** The functions of the caller, by number. *)
  user_code : nat → val → val → M returned;
  (** The installed helpers applied to store values, as the template engine
      calls them; [Data] gives their behaviour on plain data. *)
  call_helper : helper → val → val → M returned;
  (** The template engine: [nunjucks.configure(path, {watch})],
      [markdown.register(env, fn)] and [env.render(template, data)]. *)
  environment : Type;
  nunjucks_configure : val → bool → environment;
  markdown_register : environment → (string → string) → environment;
  env_render : environment → val → val → M string;
  (** [marked(md, {renderer})], given the renderer's table rule. *)
  marked : (string → string → string) → string → string;
  (** [ramljsonexpander.expandJsonSchemas] *)
  expandJsonSchemas : val → M val;
  (** [new Minimize({quotes}).parse(html, callback)]: the arguments
      [(error, result)] the callback is invoked with, or [None] when it
      never is. *)
  minimize_parse : bool → val → M (option (val * val));
  (** ToString of an object of the store. *)
  object_to_string : store → loc → string;
  (** The text of an integer of magnitude [10^21] or more, which is written
      with an exponent. *)
  number_exponent_form : Z → string
}.

Section Pipeline.

Context `{!Collaborators}.

(** ToString *)
Definition to_string (h : store) (v : val) : string :=
  match v with
  | Undef => "undefined"
  | Null => "null"
  | Bool true => "true"
  | Bool false => "false"
  | Num n => if (Z.abs n <? 10 ^ 21)%Z then pretty n else number_exponent_form n
  | Str s => s
  | Ref l => object_to_string h l
  end.

(** [new Error(message)] *)
Definition new_error (message : val) : M val := λ h,
  alloc (Object (ErrorObject "Error") {[ "message" := Str (to_string h message) ]}) h.

(** What the promise returned by a [then] callback settles to. *)
Definition settle (r : completion returned * store) : completion settled * store :=
  match r with
  | (Normal (Plain v), h) => (Normal (Fulfilled v), h)
  | (Normal (Promised p), h) => (Normal p, h)
  | (Throw e, h) => (Normal (Rejected e), h)
  end.

(** [r.then(callback)] with no rejection handler.  Promises are the only
    values with a [then] method. *)
Definition then_ (r : returned) (callback : val → M returned) : M settled :=
  match r with
  | Plain _ => throw_type_error
  | Promised (Fulfilled v) => λ h, settle (callback v h)
  | Promised (Rejected e) => mret (Rejected e)
  | Promised Pending => mret Pending
  end.

(** The renderer's table rule (line 62). *)
Definition render_table (thead tbody : string) : string :=
  "<table class=" +:+ dquote +:+ "table" +:+ dquote +:+ "><thead>" +:+ thead
    +:+ "</thead><tbody>" +:+ tbody +:+ "</tbody></table>".

(** The default [processRamlObj] (lines 54-113), closed over
    [mainTemplate] and [templatesPath]. *)
Definition processRamlObj (mainTemplate templatesPath : val) (ramlObj : val)
  : M returned :=
  let env := nunjucks_configure templatesPath false in
  let env := markdown_register env (marked render_table) in
  f ← alloc (function_object (HelperCode SecuritySchemeWithName));
  set_prop ramlObj "securitySchemeWithName" f;;
  g ← alloc (function_object (HelperCode RenderSecuredBy));
  set_prop ramlObj "renderSecuredBy" g;;
  ramlObj ← expandJsonSchemas ramlObj;
  html ← env_render env mainTemplate ramlObj;
  let html := unescape_quotes html in
  mret (Promised (Fulfilled (Str html))).

(** The default [postProcessHtml] (lines 115-131). *)
Definition postProcessHtml (html : val) : M returned :=
  called ← minimize_parse true html;
  match called with
  | Some (error, result) =>
      if truthy error then
        e ← new_error error;
        mret (Promised (Rejected e))
      else mret (Promised (Fulfilled result))
  | None => mret (Promised Pending)
  end.

(** Running a function body with [this] and one argument. *)
Definition apply (c : code) (this arg : val) : M returned :=
  match c with
  | UserCode n => user_code n this arg
  | ProcessRamlObjCode mainTemplate templatesPath =>
      processRamlObj mainTemplate templatesPath arg
  | PostProcessHtmlCode => postProcessHtml arg
  | HelperCode f => call_helper f this arg
  end.

(** [this.f(arg)] for the value [f] of a property of [this]. *)
Definition call (f this arg : val) : M returned := λ h,
  match fun_code h f with
  | Some c => apply c this arg h
  | None => throw_type_error h
  end.

(** The callback of line 27. *)
Definition on_rendered (config html : val) : M returned :=
  g ← get_prop config "postProcessHtml";
  if truthy g then call g config html
  else mret (Plain html).

(** Lines 26-35: render when a renderer is configured, else hand back the
    RAML object. *)
Definition dispatch (config ramlObj : val) : M returned :=
  f ← get_prop config "processRamlObj";
  if truthy f then
    rendered ← call f config ramlObj;
    p ← then_ rendered (on_rendered config);
    mret (Promised p)
  else mret (Plain ramlObj).

(** The callback of line 23. *)
Definition on_parsed (config ramlObj : val) : M returned :=
  set_prop ramlObj "config" config;;
  dispatch config ramlObj.

(** Lines 20-21: the configuration in use, stamped with the version. *)
Definition stamp_config (config : val) : M val :=
  config ← (if truthy config then mret config else alloc empty_object);
  set_prop config "raml2HtmlVersion" (Str version);;
  mret config.

(** [render] (lines 19-37). *)
Definition render (source config : val) : M settled :=
  config ← stamp_config config;
  parsed ← raml2obj_parse source;
  then_ parsed (on_parsed config).

(** A configuration [render] can stamp: an absent (falsy) one, or an object
    of the store. *)
Definition acceptable_config (h : store) (config : val) : bool :=
  negb (truthy config) ||
  match config with
  | Ref c => bool_decide (is_Some (h !! c))
  | _ => false
  end.

(** [getDefaultConfig] (lines 44-133). *)
Definition getDefaultConfig (mainTemplate templatesPath : val) : M val :=
  let '(mainTemplate, templatesPath) :=
    if negb (truthy mainTemplate)
    then (Str "./lib/template.nunjucks", Str dirname)
    else (mainTemplate, templatesPath) in
  f ← alloc (function_object (ProcessRamlObjCode mainTemplate templatesPath));
  g ← alloc (function_object PostProcessHtmlCode);
  alloc (Object PlainObject {[ "processRamlObj" := f; "postProcessHtml" := g ]}).

End Pipeline.

End Pipeline.


(** ** The behaviour the specification words *)

Module Spec.
Import Data.

(** The fragment the specification gives for one scheme of a requirement:
    the name in bold, then the list of scopes when there are any. *)
Definition scheme_fragment (entry : string * list string) : string :=
  "<b>" +:+ entry.1 +:+ "</b>" +:+
  match entry.2 with
  | [] => ""
  | scopes =>
      " with scopes:<ul>"
        +:+ Text.concat (map (λ scope, "<li>" +:+ scope +:+ "</li>") scopes)
        +:+ "</ul>"
  end.

(** The requirement object [{name: {scopes: [...]}, ...}]. *)
Definition requirement (entries : list (string * list string)) : value :=
  VObj (map (λ entry, (entry.1, VObj [("scopes", VArr (map VStr entry.2))])) entries).

(** An entry keyed by [name]. *)
Definition keyed (name : string) (entry : value) : bool :=
  match entry with
  | VObj props => bool_decide (is_Some (lookup_prop name props))
  | _ => false
  end.

(** The first scheme entry matching a name, as the specification words the
    result of [securitySchemeWithName]. *)
Definition first_entry_keyed (name : string) (schemes : list value) : value :=
  or_undefined (List.find (keyed name) schemes).

(** The entry holds a falsy value under [name]: a falsy own property, or no
    property at all, own or inherited. *)
Definition falsy_at `{!Runtime} (name : string) (entry : value) : bool :=
  match read entry name with
  | Ret found => negb (truthy_member found)
  | Throw _ => false
  end.

(** The search of [securitySchemeWithName] read off the list of entries. *)
Fixpoint scan_list `{!Runtime} (name : string) (entries : list value) : result member :=
  match entries with
  | [] => Ret (Value VUndefined)
  | entry :: entries' =>
      found ← read entry name;
      if truthy_member found then Ret found else scan_list name entries'
  end.

(** A runtime that reads no string as a number, whose prototypes hold the
    names of [object_prototype] and no other, and that writes every large
    number as [1e+21]. *)
Definition sample_runtime : Runtime := {|
  string_to_number := λ _, None;
  more_inherited := λ _ _, false;
  exponent_form := λ _, "1e+21"
|}.

(** A RAML object with one security scheme, [oauth2]. *)
Definition oauth2_scheme : value := VObj [("type", VStr "OAuth 2.0")].
Definition oauth2_entry : value := VObj [("oauth2", oauth2_scheme)].
Definition oauth2_raml : value := VObj [("securitySchemes", VArr [oauth2_entry])].

(** A RAML object whose first four entries hold a falsy value under
    [oauth2]. *)
Definition falsy_raml : value :=
  VObj [("title", VStr "api");
        ("securitySchemes",
         VArr [VObj [("oauth2", VNull)]; VObj [("oauth2", VNum 0)];
               VObj [("oauth2", VStr "")]; VObj [("oauth2", VBool false)];
               VObj [("basic", VStr "b")]; oauth2_entry])].

(** The properties of the requirement object, scheme by scheme. *)
Definition scheme_props (entries : list (string * list string)) : list (string * value) :=
  map (λ entry, (entry.1, VObj [("scopes", VArr (map VStr entry.2))])) entries.

(** The scheme has no [scopes] to take the [length] of. *)
Definition scopes_missing (scheme : value) : bool :=
  match get_prop scheme "scopes" with
  | Ret VUndefined | Ret VNull | Throw _ => true
  | Ret _ => false
  end.

(** The fragment for one scheme, given the texts of its scopes. *)
Definition values_fragment (name : string) (texts : list string) : string :=
  "<b>" +:+ name +:+ "</b>" +:+
  match texts with
  | [] => ""
  | _ =>
      " with scopes:<ul>"
        +:+ Text.concat (map (λ text, "<li>" +:+ text +:+ "</li>") texts)
        +:+ "</ul>"
  end.

(** The characters of a string, each as a string of its own. *)
Fixpoint characters (s : string) : list string :=
  match s with
  | EmptyString => []
  | String c s' => String c EmptyString :: characters s'
  end.

End Spec.

(** ** The stages of the default renderer *)

Module Stages.
Import Pipeline.

Section Stages.

Context `{!Collaborators}.

(** Lines 71-100 of the default [processRamlObj]: the two helpers are
    created and stored on the RAML object. *)
Definition install_helpers (ramlObj : val) : M unit :=
  f ← alloc (function_object (HelperCode SecuritySchemeWithName));
  set_prop ramlObj "securitySchemeWithName" f;;
  g ← alloc (function_object (HelperCode RenderSecuredBy));
  set_prop ramlObj "renderSecuredBy" g.

(** Lines 102-112: expansion, rendering of the main template, replacement of
    the quote entities, and the resolved promise. *)
Definition render_template (mainTemplate templatesPath ramlObj : val) : M returned :=
  let env := markdown_register (nunjucks_configure templatesPath false)
               (marked render_table) in
  ramlObj ← expandJsonSchemas ramlObj;
  html ← env_render env mainTemplate ramlObj;
  mret (Promised (Fulfilled (Str (unescape_quotes html)))).

(** What [render] passes on from a renderer that does not resolve: the
    rejection, the thrown value as a rejection, or the pending state. *)
Definition passed_on (res : completion returned) : option settled :=
  match res with
  | Throw e | Normal (Promised (Rejected e)) => Some (Rejected e)
  | Normal (Promised Pending) => Some Pending
  | Normal (Promised (Fulfilled _)) | Normal (Plain _) => None
  end.

(** The object a TypeError of the runtime is. *)
Definition type_error : object := Object (ErrorObject "TypeError") ∅.

(** The value is not a reference to an object. *)
Definition primitive (v : val) : bool :=
  match v with
  | Ref _ => false
  | _ => true
  end.

End Stages.

End Stages.

(** ** A sample set of collaborators *)

Module Demo.
Import Pipeline.

(** The caller's renderer, which resolves to [<x>] whatever it is given. *)
Definition renderer : val → val → M returned :=
  λ _ _, mret (Promised (Fulfilled (Str "<x>"))).

(** The caller's post-processor, which brackets the text. *)
Definition bracket : val → val → M returned :=
  λ _ html,
    match html with
    | Str s => mret (Promised (Fulfilled (Str ("[" +:+ s +:+ "]"))))
    | _ => mret (Promised (Rejected html))
    end.

(** A parser that rejects the empty document and resolves to a new object
    for any other source; a template engine that emits one escaped
    attribute; a minifier that fails on the empty text. *)
Definition collaborators : Collaborators := {|
  version := "2.0.2";
  dirname := "/opt/raml2html";
  raml2obj_parse := λ source,
    match source with
    | Str EmptyString => mret (Promised (Rejected (Str "empty document")))
    | _ =>
        ramlObj ← alloc (Object PlainObject {[ "title" := source ]});
        mret (Promised (Fulfilled ramlObj))
    end;
  user_code := λ n, match n with 0 => renderer | _ => bracket end;
  call_helper := λ _ _ _, mret (Plain Undef);
  environment := val;
  nunjucks_configure := λ path _, path;
  markdown_register := λ env _, env;
  env_render := λ _ _ _, mret "<a title=&quot;x&quot;>";
  marked := λ _ md, md;
  expandJsonSchemas := λ ramlObj, mret ramlObj;
  minimize_parse := λ _ html,
    match html with
    | Str EmptyString => mret (Some (Str "nothing to minify", Undef))
    | _ => mret (Some (Null, html))
    end;
  object_to_string := λ _ _, "[object Object]";
  number_exponent_form := λ _, "1e+21"
|}.

(** A store with the configuration [{processRamlObj, postProcessHtml}] at
    1, and one with the configuration [{}] at 1. *)
Definition full_store : store :=
  {[ 1%positive := Object PlainObject
                     {[ "processRamlObj" := Ref 2%positive; "postProcessHtml" := Ref 3%positive ]};
     2%positive := function_object (UserCode 0);
     3%positive := function_object (UserCode 1) ]}.

Definition bare_store : store := {[ 1%positive := empty_object ]}.

(** Collaborators whose template engine fails and whose minifier never calls
    back, except on the empty text, where it throws. *)
Definition failing : Collaborators := {|
  version := "2.0.2";
  dirname := "/opt/raml2html";
  raml2obj_parse := λ source,
    match source with
    | Str EmptyString => mret (Promised (Fulfilled Undef))
    | _ =>
        ramlObj ← alloc (Object PlainObject {[ "title" := source ]});
        mret (Promised (Fulfilled ramlObj))
    end;
  user_code := λ n _ _,
    match n with
    | 0 => mret (Promised (Rejected (Str "no template")))
    | _ => λ h, (Throw (Str "renderer crashed"), h)
    end;
  call_helper := λ _ _ _, mret (Plain Undef);
  environment := val;
  nunjucks_configure := λ path _, path;
  markdown_register := λ env _, env;
  env_render := λ _ _ _ h, (Throw (Str "Template render error"), h);
  marked := λ _ md, md;
  expandJsonSchemas := λ ramlObj, mret ramlObj;
  minimize_parse := λ _ html,
    match html with
    | Str EmptyString => λ h, (Throw (Str "nothing to parse"), h)
    | _ => mret None
    end;
  object_to_string := λ _ _, "[object Object]";
  number_exponent_form := λ _, "1e+21"
|}.

(** A store with the configuration [{processRamlObj: 7}] at 1, and one with
    [{processRamlObj, postProcessHtml: "minify"}] at 1. *)
Definition number_store : store :=
  {[ 1%positive := Object PlainObject {[ "processRamlObj" := Num 7 ]} ]}.

Definition text_store : store :=
  {[ 1%positive := Object PlainObject
                     {[ "processRamlObj" := Ref 2%positive;
                        "postProcessHtml" := Str "minify" ]};
     2%positive := function_object (UserCode 0) ]}.

(** A store with [{postProcessHtml}] alone at 1. *)
Definition post_only_store : store :=
  {[ 1%positive := Object PlainObject {[ "postProcessHtml" := Ref 3%positive ]};
     3%positive := function_object (UserCode 1) ]}.

(** The store [getDefaultConfig('index.nunjucks', 'templates')] builds from
    nothing, and the configuration it returns. *)
Definition default_built : completion val * store :=
  getDefaultConfig (H := collaborators) (Str "index.nunjucks") (Str "templates") ∅.

End Demo.

(** * Facts *)

(** ** Global replacement *)

Module TextFacts.
Import Text.

Lemma append_nil (s : string) : "" +:+ s = s.
Proof. reflexivity. Qed.

Lemma append_cons c (s t : string) : String c s +:+ t = String c (s +:+ t).
Proof. reflexivity. Qed.

Ltac push_append := rewrite ?append_cons, ?append_nil in *.

Lemma append_assoc (s t u : string) : (s +:+ t) +:+ u = s +:+ t +:+ u.
Proof. induction s as [|c s IH]; push_append; [done|by rewrite IH]. Qed.

Lemma append_empty (s : string) : s +:+ "" = s.
Proof. induction s as [|c s IH]; push_append; [done|by rewrite IH]. Qed.

Lemma starts_with_app p post : starts_with p (p +:+ post) = true.
Proof.
  induction p as [|a p IH]; push_append; simpl; [done|].
  by rewrite Ascii.eqb_refl.
Qed.

Lemma occursb_head p s : starts_with p s = true → occursb p s = true.
Proof. destruct s; simpl; intros ->; done. Qed.

Lemma occursb_tail p c s : occursb p s = true → occursb p (String c s) = true.
Proof. simpl; intros ->. apply orb_true_r. Qed.

Lemma occurs_occursb p s : occurs p s → occursb p s = true.
Proof.
  intros (pre & post & ->).
  induction pre as [|c pre IH]; push_append.
  - apply occursb_head, starts_with_app.
  - by apply occursb_tail.
Qed.

Lemma replace_all_nil p0 p r : replace_all p0 p r "" = "".
Proof. by simp replace_all. Qed.

Lemma replace_all_cons p0 p r c s :
  replace_all p0 p r (String c s) =
  if starts_with (String p0 p) (String c s)
  then r +:+ replace_all p0 p r (skip (String.length p) s)
  else String c (replace_all p0 p r s).
Proof. by simp replace_all. Qed.

(** A run of characters without [q] at the head of the replaced text was
    already at the head of the original text. *)
Lemma starts_with_replaced p0 p q w s :
  absent q w →
  starts_with w (replace_all p0 p (String q "") s) = true →
  starts_with w s = true.
Proof.
  revert s; induction w as [|a w IH]; intros s Hw; [done|].
  destruct Hw as [Ha Hw].
  destruct s as [|c s]; [by rewrite replace_all_nil|].
  rewrite replace_all_cons.
  destruct (starts_with (String p0 p) (String c s)) eqn:Hm; push_append; cbn [starts_with].
  - destruct (Ascii.eqb_spec a q); [done|discriminate].
  - destruct (Ascii.eqb a c); [apply IH, Hw|done].
Qed.

(** The replaced text never starts with the pattern. *)
Lemma replaced_head p0 p q s :
  absent q (String p0 p) →
  starts_with (String p0 p) (replace_all p0 p (String q "") s) = false.
Proof.
  intros Hq. destruct (starts_with _ (replace_all _ _ _ _)) eqn:E; [|done].
  pose proof (starts_with_replaced _ _ _ _ _ Hq E) as Hs.
  destruct s as [|c s]; [done|].
  rewrite replace_all_cons, Hs in E. push_append. cbn [starts_with] in E.
  destruct Hq as [Hq _]. destruct (Ascii.eqb_spec p0 q); [done|discriminate].
Qed.

Lemma skip_length n s : (String.length (skip n s) <= String.length s)%nat.
Proof.
  revert s; induction n as [|n IH]; intros [|c s]; simpl; try lia.
  specialize (IH s); lia.
Qed.

(** Nor does the pattern start anywhere later in it. *)
Lemma replaced_clean p0 p q s :
  absent q (String p0 p) →
  occursb (String p0 p) (replace_all p0 p (String q "") s) = false.
Proof.
  intros Hq.
  remember (String.length s) as n eqn:Hn. revert s Hn.
  induction n as [n IH] using lt_wf_ind; intros s ->.
  pose proof (replaced_head p0 p q s Hq) as Hhead.
  destruct s as [|c s]; [by rewrite replace_all_nil|].
  rewrite replace_all_cons in *.
  destruct (starts_with (String p0 p) (String c s)) eqn:Hm.
  - push_append. cbn [occursb]. rewrite Hhead. cbn [orb].
    eapply IH; [|done].
    pose proof (skip_length (String.length p) s). simpl. lia.
  - cbn [occursb]. rewrite Hhead. cbn [orb].
    eapply IH; [|done]. simpl. lia.
Qed.

Lemma unescape_quotes_clean html : ¬ occurs "&quot;" (unescape_quotes html).
Proof.
  intros Hoccurs%occurs_occursb. unfold unescape_quotes, dquote in Hoccurs.
  rewrite (replaced_clean "&" "quot;" (Ascii.ascii_of_nat 34) html) in Hoccurs; [done|].
  cbn. repeat split; discriminate.
Qed.

End TextFacts.

(** ** The helpers on plain data *)

Module DataFacts.
Import Data Spec TextFacts.

Section Facts.

Context `{!Runtime}.

Lemma loop_count_length (n : nat) : loop_count (VNum (Z.of_nat n)) = Ret n.
Proof. unfold loop_count; cbn. by rewrite Nat2Z.id. Qed.

Lemma scan_schemes_list name entries count index :
  index + count = length entries →
  scan_schemes (VArr entries) name index count = scan_list name (drop index entries).
Proof.
  revert index; induction count as [|count IH]; intros index Hlen.
  - rewrite drop_ge by lia. done.
  - assert (is_Some (entries !! index)) as [entry Hentry]
      by (apply lookup_lt_is_Some_2; lia).
    rewrite (drop_S _ _ _ Hentry). cbn [scan_schemes scan_list get_index].
    rewrite Hentry. cbn [or_undefined mbind result_bind].
    destruct (read entry name) as [found|]; cbn [mbind result_bind]; [|done].
    destruct (truthy_member found); [done|]. apply IH. lia.
Qed.

Lemma securitySchemeWithName_list ramlObj entries name :
  get_prop ramlObj "securitySchemes" = Ret (VArr entries) →
  securitySchemeWithName ramlObj name = scan_list name entries.
Proof.
  intros Hget. unfold securitySchemeWithName. rewrite Hget.
  cbn [mbind result_bind get_prop]. change (String.eqb "length" "length") with true.
  cbn iota. cbn [mbind result_bind]. rewrite loop_count_length.
  cbn [mbind result_bind]. by apply scan_schemes_list.
Qed.

Lemma scan_list_skip name pre rest :
  forallb (falsy_at name) pre = true →
  scan_list name (pre ++ rest) = scan_list name rest.
Proof.
  induction pre as [|entry pre IH]; [done|]. cbn [forallb app scan_list].
  intros [Hentry Hpre]%andb_true_iff. unfold falsy_at in Hentry.
  destruct (read entry name) as [found|]; [|done]. cbn [mbind result_bind].
  apply negb_true_iff in Hentry. rewrite Hentry. by apply IH.
Qed.

Lemma read_own name props v :
  lookup_prop name props = Some v → read (VObj props) name = Ret (Value v).
Proof. unfold read; cbn [own_prop]. by intros ->. Qed.

Lemma read_absent name props :
  lookup_prop name props = None →
  inherits (VObj props) name = false →
  read (VObj props) name = Ret (Value VUndefined).
Proof. unfold read; cbn [own_prop]. by intros -> ->. Qed.

Lemma falsy_at_unkeyed name props :
  lookup_prop name props = None →
  inherits (VObj props) name = false →
  falsy_at name (VObj props) = true.
Proof. intros Hown Hproto. unfold falsy_at. by rewrite read_absent. Qed.

(** C6 (amended): for a name that no entry finds on its prototype chain, on
    a RAML object whose [securitySchemes] is a sequence of objects,
    [securitySchemeWithName(name)] returns the value stored under [name] in
    the first entry keyed by [name], when that value is truthy (the value,
    not the entry); when no entry is keyed by [name] it returns
    [undefined]. *)
Theorem securitySchemeWithName_keyed ramlObj (objs : list (list (string * value))) name :
  get_prop ramlObj "securitySchemes" = Ret (VArr (map VObj objs)) →
  Forall (λ q, inherits (VObj q) name = false) objs →
  (∀ pre props post found,
      objs = pre ++ props :: post →
      Forall (λ q, lookup_prop name q = None) pre →
      lookup_prop name props = Some found →
      truthy found = true →
      securitySchemeWithName ramlObj name = Ret (Value found))
  ∧ (Forall (λ q, lookup_prop name q = None) objs →
      securitySchemeWithName ramlObj name = Ret (Value VUndefined)).
Proof.
  intros Hget Hproto. rewrite (securitySchemeWithName_list _ _ _ Hget).
  assert (∀ qs, Forall (λ q, inherits (VObj q) name = false) qs →
                Forall (λ q, lookup_prop name q = None) qs →
                forallb (falsy_at name) (map VObj qs) = true) as Hskip.
  { induction 1 as [|q qs Hq _ IH]; [done|].
    intros [Hown Hrest]%Forall_cons. cbn [map forallb].
    by rewrite falsy_at_unkeyed, IH. }
  split.
  - intros pre props post found -> Hpre Hfound Htruthy.
    apply Forall_app in Hproto as [Hproto _].
    rewrite map_app. cbn [map]. rewrite scan_list_skip by auto.
    cbn [scan_list]. rewrite (read_own _ _ _ Hfound). cbn [mbind result_bind truthy_member].
    by rewrite Htruthy.
  - intros Hall. rewrite <- (app_nil_r (map VObj objs)).
    by rewrite scan_list_skip by auto.
Qed.

(** C10: the search tests the truthiness of each entry's property under the
    name, read as a property read reads it, and returns what it read:
    entries holding a falsy value under the name are passed over, the first
    truthy value found is returned (the value, not the entry), and
    [undefined] is returned when every entry holds a falsy value. *)
Theorem securitySchemeWithName_first_truthy ramlObj entries name :
  get_prop ramlObj "securitySchemes" = Ret (VArr entries) →
  (∀ pre entry post found,
      entries = pre ++ entry :: post →
      forallb (falsy_at name) pre = true →
      read entry name = Ret found →
      truthy_member found = true →
      securitySchemeWithName ramlObj name = Ret found)
  ∧ (forallb (falsy_at name) entries = true →
      securitySchemeWithName ramlObj name = Ret (Value VUndefined)).
Proof.
  intros Hget. rewrite (securitySchemeWithName_list _ _ _ Hget). split.
  - intros pre entry post found -> Hpre Hfound Htruthy.
    rewrite scan_list_skip by done. cbn [scan_list].
    rewrite Hfound. cbn [mbind result_bind]. by rewrite Htruthy.
  - intros Hall. rewrite <- (app_nil_r entries).
    by rewrite scan_list_skip.
Qed.

Lemma collect_strings (texts : list string) :
  collect (map to_string (map VStr texts)) = Ret texts.
Proof.
  induction texts as [|text texts IH]; [done|].
  cbn [map collect to_string mbind result_bind]. rewrite IH. done.
Qed.

(** The inner loop appends one list item per element, in order, unless an
    element has no text. *)
Lemma render_scopes_list items texts count index out :
  index + count = length items →
  collect (map to_string (drop index items)) = Ret texts →
  render_scopes (VArr items) index count out =
  Ret (out +:+ Text.concat (map (λ text, "<li>" +:+ text +:+ "</li>") texts)).
Proof.
  revert index texts out; induction count as [|count IH]; intros index texts out Hlen.
  - rewrite drop_ge by lia. intros [= <-]. cbn [map Text.concat render_scopes].
    by rewrite append_empty.
  - assert (is_Some (items !! index)) as [scope Hscope]
      by (apply lookup_lt_is_Some_2; lia).
    rewrite (drop_S _ _ _ Hscope). cbn [render_scopes get_index map collect].
    rewrite Hscope. cbn [or_undefined mbind result_bind].
    destruct (to_string scope) as [text|]; cbn [mbind result_bind]; [|done].
    destruct (collect (map to_string (drop (S index) items))) as [rest|] eqn:Hrest;
      cbn [mbind result_bind]; [|done].
    intros [= <-]. rewrite (IH (S index) rest) by (done || lia).
    cbn [map Text.concat]. by rewrite !append_assoc.
Qed.

Lemma inherits_hasOwnProperty v : inherits v "hasOwnProperty" = true.
Proof.
  unfold inherits. rewrite bool_decide_eq_true_2; [done|].
  unfold object_prototype. by do 1 right; left.
Qed.

Lemma own_key_inherited props key :
  lookup_prop "hasOwnProperty" props = None →
  own_key (VObj props) key = Ret (has_own_property (VObj props) key).
Proof.
  intros Hown. unfold own_key, read. cbn [own_prop]. rewrite Hown.
  by rewrite inherits_hasOwnProperty.
Qed.

Lemma own_key_shadowed props key :
  is_Some (lookup_prop "hasOwnProperty" props) →
  own_key (VObj props) key = Throw TypeError.
Proof.
  intros [v Hown]. unfold own_key, read. cbn [own_prop]. by rewrite Hown.
Qed.

Lemma lookup_prop_head key v props : lookup_prop key ((key, v) :: props) = Some v.
Proof. cbn [lookup_prop]. by rewrite String.eqb_refl. Qed.

Lemma lookup_prop_unkeyed key props :
  key ∉ map fst props → lookup_prop key props = None.
Proof.
  induction props as [|[k v] props IH]; [done|]. cbn [map fst lookup_prop].
  intros [Hne Hrest]%not_elem_of_cons.
  destruct (String.eqb_spec k key); [congruence|by apply IH].
Qed.

Lemma lookup_prop_keyed key props :
  key ∈ map fst props → is_Some (lookup_prop key props).
Proof.
  induction props as [|[k v] props IH]; cbn [map fst lookup_prop].
  - by intros ?%elem_of_nil.
  - destruct (String.eqb_spec k key); [by eexists|].
    intros [?|?]%elem_of_cons; [congruence|by apply IH].
Qed.

(** One turn of the loop on a scheme whose scopes all have a text. *)
Lemma render_key_texts props key sprops items texts out :
  lookup_prop "hasOwnProperty" props = None →
  lookup_prop key props = Some (VObj sprops) →
  lookup_prop "scopes" sprops = Some (VArr items) →
  collect (map to_string items) = Ret texts →
  render_key (VObj props) key out = Ret (out +:+ values_fragment key texts).
Proof.
  intros Hown Hkey Hscopes Htexts. unfold render_key, values_fragment.
  rewrite own_key_inherited by done. cbn [mbind result_bind has_own_property].
  rewrite bool_decide_eq_true_2 by eauto.
  cbn [get_prop]. rewrite Hkey. cbn [or_undefined mbind result_bind get_prop].
  rewrite Hscopes. cbn [or_undefined mbind result_bind get_prop].
  change (String.eqb "length" "length") with true. cbn iota.
  cbn [mbind result_bind].
  destruct items as [|item items].
  - injection Htexts as <-.
    cbn [length truthy Z.of_nat Z.eqb negb]. by rewrite !append_assoc, append_empty.
  - change (truthy _) with true. cbn iota.
    rewrite loop_count_length. cbn [mbind result_bind].
    rewrite (render_scopes_list _ texts) by done.
    cbn [mbind result_bind].
    destruct texts as [|text texts].
    { cbn [map collect] in Htexts.
      destruct (to_string item); cbn [mbind result_bind] in Htexts; [|done].
      by destruct (collect _). }
    by rewrite !append_assoc.
Qed.

Lemma scheme_fragment_values key scopes :
  scheme_fragment (key, scopes) = values_fragment key scopes.
Proof. unfold scheme_fragment, values_fragment. by destruct scopes. Qed.

Lemma render_key_scheme props key scopes out :
  lookup_prop "hasOwnProperty" props = None →
  lookup_prop key props = Some (VObj [("scopes", VArr (map VStr scopes))]) →
  render_key (VObj props) key out = Ret (out +:+ scheme_fragment (key, scopes)).
Proof.
  intros Hown Hkey. rewrite scheme_fragment_values.
  eapply render_key_texts; [done|done|apply lookup_prop_head|apply collect_strings].
Qed.

Lemma render_keys_schemes props entries out :
  lookup_prop "hasOwnProperty" props = None →
  Forall (λ entry, lookup_prop entry.1 props
                   = Some (VObj [("scopes", VArr (map VStr entry.2))])) entries →
  render_keys (VObj props) (map fst entries) out =
  Ret (out +:+ Text.concat (map scheme_fragment entries)).
Proof.
  intros Hown Hall; revert out.
  induction Hall as [|[key scopes] entries Hkey _ IH]; intros out.
  - cbn [map render_keys Text.concat]. by rewrite append_empty.
  - cbn [map render_keys Text.concat fst].
    rewrite (render_key_scheme _ _ _ _ Hown Hkey). cbn [mbind result_bind].
    rewrite IH. by rewrite append_assoc.
Qed.

Lemma lookup_prop_first key v pre props :
  key ∉ map fst pre →
  lookup_prop key (pre ++ (key, v) :: props) = Some v.
Proof.
  induction pre as [|[k w] pre IH]; cbn [app map fst lookup_prop].
  - by rewrite String.eqb_refl.
  - intros Hpre. apply not_elem_of_cons in Hpre as [Hne Hpre].
    destruct (String.eqb_spec k key); [congruence|by apply IH].
Qed.

(** In an object without repeated keys, every listed property is the one a
    read by its key finds. *)
Lemma requirement_lookup entries :
  NoDup (map fst entries) →
  ∀ pre post, entries = pre ++ post →
  Forall (λ entry, lookup_prop entry.1
                     (map (λ entry, (entry.1, VObj [("scopes", VArr (map VStr entry.2))]))
                          entries)
                   = Some (VObj [("scopes", VArr (map VStr entry.2))])) post.
Proof.
  intros Hnd pre post; revert pre; induction post as [|entry post IH]; intros pre ->.
  - constructor.
  - constructor.
    + rewrite map_app. cbn [map].
      rewrite map_app in Hnd. cbn [map] in Hnd.
      apply NoDup_app in Hnd as (_ & Hpre & _).
      apply lookup_prop_first.
      rewrite map_map. cbn [fst]. intros Hin. apply (Hpre _ Hin). left.
    + apply (IH (pre ++ [entry])). by rewrite <- app_assoc.
Qed.

(** An own property named [hasOwnProperty] stops the loop at its first
    turn. *)
Lemma renderSecuredBy_shadowed props :
  is_Some (lookup_prop "hasOwnProperty" props) →
  renderSecuredBy (VObj props) = Throw TypeError.
Proof.
  intros Hown. unfold renderSecuredBy. cbn [typeof_object for_in_keys].
  destruct props as [|[key v] props]; [by destruct Hown|].
  cbn [map render_keys fst]. unfold render_key.
  by rewrite own_key_shadowed.
Qed.

(** C5 (the code at the failing input): a requirement object with a scheme
    named [hasOwnProperty] is not rendered: at line 85 the property
    [hasOwnProperty] that is read is the scheme itself, calling it throws a
    TypeError, and no fragment is returned. *)
Theorem renderSecuredBy_own_hasOwnProperty (entries : list (string * list string)) :
  "hasOwnProperty" ∈ map fst entries →
  renderSecuredBy (requirement entries) = Throw TypeError.
Proof.
  intros Hin. apply renderSecuredBy_shadowed, lookup_prop_keyed.
  by rewrite map_map.
Qed.

End Facts.

(** C6, as stated, fails: the search returns the scheme stored under the
    name, not the entry that is keyed by it. *)
Lemma securitySchemeWithName_not_entry :
  first_entry_keyed "oauth2" [oauth2_entry] = oauth2_entry
  ∧ securitySchemeWithName (H := sample_runtime) oauth2_raml "oauth2"
    = Ret (Value oauth2_scheme)
  ∧ securitySchemeWithName (H := sample_runtime) oauth2_raml "oauth2"
    ≠ Ret (Value (first_entry_keyed "oauth2" [oauth2_entry])).
Proof. split; [done|]. split; [done|]. vm_compute. discriminate. Qed.

Lemma renderSecuredBy_own_hasOwnProperty_witness :
  renderSecuredBy (H := sample_runtime)
    (VObj [("hasOwnProperty", VObj [("scopes", VArr [])])])
  = Throw TypeError.
Proof.
  apply (renderSecuredBy_own_hasOwnProperty (H := sample_runtime) [("hasOwnProperty", [])]).
  apply (bool_decide_unpack ("hasOwnProperty" ∈ ["hasOwnProperty"])). vm_compute. exact I.
Defined.

Lemma securitySchemeWithName_keyed_witness :
  securitySchemeWithName (H := sample_runtime) oauth2_raml "oauth2"
  = Ret (Value oauth2_scheme).
Proof.
  refine (proj1 (securitySchemeWithName_keyed (H := sample_runtime) oauth2_raml
                   [[("oauth2", oauth2_scheme)]] "oauth2" _ _)
            [] [("oauth2", oauth2_scheme)] [] oauth2_scheme _ _ _ _);
    first [reflexivity | repeat constructor].
Defined.

Lemma securitySchemeWithName_first_truthy_witness :
  securitySchemeWithName (H := sample_runtime) falsy_raml "oauth2"
  = Ret (Value oauth2_scheme).
Proof.
  refine (proj1 (securitySchemeWithName_first_truthy (H := sample_runtime)
                   falsy_raml _ "oauth2" _)
            [VObj [("oauth2", VNull)]; VObj [("oauth2", VNum 0)];
             VObj [("oauth2", VStr "")]; VObj [("oauth2", VBool false)];
             VObj [("basic", VStr "b")]]
            oauth2_entry [] (Value oauth2_scheme) _ _ _ _); reflexivity.
Defined.

End DataFacts.

(** ** The orchestrator and the default configuration *)

Module PipelineFacts.
Import Pipeline.

Section Facts.

Context `{!Collaborators}.

Lemma bind_normal {A B : Type} (m : M A) (k : A → M B) h a h' :
  m h = (Normal a, h') → (m ≫= k) h = k a h'.
Proof. unfold mbind, M_bind. by intros ->. Qed.

Lemma bind_throw {A B : Type} (m : M A) (k : A → M B) h e h' :
  m h = (Throw e, h') → (m ≫= k) h = (Throw e, h').
Proof. unfold mbind, M_bind. by intros ->. Qed.

Lemma set_prop_ref l name x o (h : store) :
  h !! l = Some o →
  set_prop (Ref l) name x h = (Normal (), <[l := with_prop name x o]> h).
Proof. unfold set_prop. by intros ->. Qed.

Lemma field_with_prop (h : store) l name x o :
  field (<[l := with_prop name x o]> h) l name = x.
Proof. unfold field. rewrite lookup_insert_eq. simpl. by rewrite lookup_insert_eq. Qed.

Lemma stamp_config_ref c o (h : store) :
  h !! c = Some o →
  stamp_config (Ref c) h
  = (Normal (Ref c), <[c := with_prop "raml2HtmlVersion" (Str version) o]> h).
Proof.
  intros Hc. unfold stamp_config. cbn [truthy].
  erewrite bind_normal by reflexivity.
  erewrite bind_normal by (by apply set_prop_ref). done.
Qed.

Lemma fresh_unused (h : store) : h !! fresh (dom h) = None.
Proof. apply not_elem_of_dom, is_fresh. Qed.

Lemma stamp_config_absent config (h : store) :
  truthy config = false →
  stamp_config config h
  = (Normal (Ref (fresh (dom h))),
     <[fresh (dom h) := Object PlainObject {[ "raml2HtmlVersion" := Str version ]}]> h).
Proof.
  intros Hc. unfold stamp_config. rewrite Hc.
  erewrite bind_normal by reflexivity.
  erewrite bind_normal by (apply set_prop_ref, lookup_insert_eq).
  unfold mret, M_ret. f_equal. by rewrite insert_insert_eq.
Qed.

Lemma on_parsed_ref config r ro (h : store) :
  h !! r = Some ro →
  on_parsed config (Ref r) h
  = dispatch config (Ref r) (<[r := with_prop "config" config ro]> h).
Proof.
  intros Hr. unfold on_parsed. by erewrite bind_normal by (by apply set_prop_ref).
Qed.

Lemma render_stamped source config cfg (h h1 : store) :
  stamp_config config h = (Normal cfg, h1) →
  render source config h
  = (parsed ← raml2obj_parse source; then_ parsed (on_parsed cfg)) h1.
Proof. intros Hs. unfold render. by erewrite bind_normal by exact Hs. Qed.


Lemma stamp_config_acceptable config (h : store) :
  acceptable_config h config = true →
  ∃ cfg, (stamp_config config h).1 = Normal cfg.
Proof.
  unfold acceptable_config. intros [Hc|Hc]%orb_true_iff.
  - apply negb_true_iff in Hc. rewrite stamp_config_absent by done. eauto.
  - destruct config as [| | | | |c]; try done.
    apply bool_decide_eq_true_1 in Hc as [o Hc].
    rewrite (stamp_config_ref _ _ _ Hc). eauto.
Qed.

(** A configuration that is neither absent nor an object makes [render]
    throw at line 21, before the parser is called. *)
Lemma render_primitive_config source config (h : store) :
  acceptable_config h config = false →
  ∃ e h', render source config h = (Throw e, h').
Proof.
  unfold acceptable_config. intros [Hc Hobj]%orb_false_iff.
  apply negb_false_iff in Hc.
  assert (∃ e h', set_prop config "raml2HtmlVersion" (Str version) h = (Throw e, h'))
    as (e & h' & Hset).
  { destruct config as [| | | | |c]; try by (do 2 eexists).
    apply bool_decide_eq_false_1 in Hobj. unfold set_prop.
    destruct (h !! c) eqn:Hl; [by destruct Hobj|by do 2 eexists]. }
  exists e, h'. unfold render. apply bind_throw.
  unfold stamp_config. rewrite Hc.
  erewrite bind_normal by reflexivity. by apply bind_throw.
Qed.

(** C2: when the parser's promise is rejected with [E], the promise of
    [render] is rejected with [E] itself, in the store the parser left:
    nothing runs after the parser, and the parser ran once. *)
Theorem parser_rejection_propagates source config E (h h2 : store) :
  acceptable_config h config = true →
  raml2obj_parse source (stamp_config config h).2 = (Normal (Promised (Rejected E)), h2) →
  render source config h = (Normal (Rejected E), h2).
Proof.
  intros Hok Hparse. destruct (stamp_config_acceptable _ _ Hok) as [cfg Hcfg].
  destruct (stamp_config config h) as [res h1] eqn:Hs. simpl in *. subst res.
  rewrite (render_stamped _ _ _ _ _ Hs).
  by erewrite bind_normal by exact Hparse.
Qed.

(** C3: with the empty configuration and a parser that resolves to an
    object, [render] resolves to that object; the only write after the
    parser attaches the configuration, which holds exactly
    [raml2HtmlVersion]; no renderer and no post-processor is called. *)
Theorem render_without_renderer source c r ro (h h2 : store) :
  h !! c = Some empty_object →
  raml2obj_parse source (<[c := with_prop "raml2HtmlVersion" (Str version) empty_object]> h)
  = (Normal (Promised (Fulfilled (Ref r))), h2) →
  h2 !! r = Some ro →
  r ≠ c →
  h2 !! c = Some (with_prop "raml2HtmlVersion" (Str version) empty_object) →
  ∃ h3 : store,
    render source (Ref c) h = (Normal (Fulfilled (Ref r)), h3)
    ∧ h3 = <[r := with_prop "config" (Ref c) ro]> h2
    ∧ field h3 r "config" = Ref c
    ∧ h3 !! c = Some (Object PlainObject {[ "raml2HtmlVersion" := Str version ]}).
Proof.
  intros Hc Hparse Hr Hrc Hc2. eexists. split; [|split; [reflexivity|]].
  - rewrite (render_stamped _ _ _ _ _ (stamp_config_ref _ _ _ Hc)).
    erewrite bind_normal by exact Hparse.
    unfold then_, settle. rewrite (on_parsed_ref _ _ _ _ Hr).
    unfold dispatch. erewrite bind_normal by reflexivity.
    unfold field. rewrite lookup_insert_ne, Hc2 by done. by simpl.
  - split; [apply field_with_prop|]. by rewrite lookup_insert_ne.
Qed.

(** C1: once the parser has resolved to an object and the configuration has
    been attached to it, the configured [processRamlObj] is called on that
    object; if its promise resolves to the string [x], [render] resolves to
    [x] when no [postProcessHtml] is configured, and to whatever
    [postProcessHtml(x)] settles to when one is. *)
Theorem render_with_renderer source c o r ro fl f x (h h2 h3 h4 : store) :
  h !! c = Some o →
  raml2obj_parse source (<[c := with_prop "raml2HtmlVersion" (Str version) o]> h)
  = (Normal (Promised (Fulfilled (Ref r))), h2) →
  h2 !! r = Some ro →
  h3 = <[r := with_prop "config" (Ref c) ro]> h2 →
  field h3 c "processRamlObj" = Ref fl →
  fun_code h3 (Ref fl) = Some f →
  apply f (Ref c) (Ref r) h3 = (Normal (Promised (Fulfilled (Str x))), h4) →
  field h3 r "config" = Ref c
  ∧ (truthy (field h4 c "postProcessHtml") = false →
      render source (Ref c) h = (Normal (Fulfilled (Str x)), h4))
  ∧ (∀ g, truthy (field h4 c "postProcessHtml") = true →
      fun_code h4 (field h4 c "postProcessHtml") = Some g →
      render source (Ref c) h = settle (apply g (Ref c) (Str x) h4)).
Proof.
  intros Hc Hparse Hr -> Hfl Hf Hx.
  split; [apply field_with_prop|].
  assert (∀ k : store → completion settled * store,
    (∀ res h5, on_rendered (Ref c) (Str x) h4 = (res, h5) → settle (res, h5) = k h4) →
    render source (Ref c) h = k h4) as Hrender.
  { intros k Hk.
    rewrite (render_stamped _ _ _ _ _ (stamp_config_ref _ _ _ Hc)).
    erewrite bind_normal by exact Hparse.
    unfold then_ at 1. rewrite (on_parsed_ref _ _ _ _ Hr).
    unfold dispatch. erewrite bind_normal by reflexivity.
    rewrite Hfl. cbn [truthy].
    erewrite bind_normal by (unfold call; rewrite Hf; exact Hx).
    unfold then_. unfold mbind at 1, M_bind at 1.
    destruct (on_rendered (Ref c) (Str x) h4) as [res h5] eqn:Hres.
    rewrite <- (Hk _ _ eq_refl).
    destruct res as [[v|p]|e]; reflexivity. }
  split.
  - intros Hg. apply (Hrender (λ h, (Normal (Fulfilled (Str x)), h))).
    intros res h5. unfold on_rendered. erewrite bind_normal by reflexivity.
    rewrite Hg. by intros [= <- <-].
  - intros g Hg Hcode. apply (Hrender (λ h, settle (apply g (Ref c) (Str x) h))).
    intros res h5. unfold on_rendered. erewrite bind_normal by reflexivity.
    rewrite Hg. unfold call. rewrite Hcode. by intros ->.
Qed.

(** C7: replacing every [&quot;] of a text by a double quote leaves no
    [&quot;] anywhere in it; and whenever the default [processRamlObj]
    returns, it returns a promise resolved to the text the template renderer
    emitted, so replaced. *)
Theorem processRamlObj_unescapes (html : string) :
  ¬ Text.occurs "&quot;" (unescape_quotes html)
  ∧ ∀ mainTemplate templatesPath ramlObj res (h h' : store),
      processRamlObj mainTemplate templatesPath ramlObj h = (Normal res, h') →
      ∃ data emitted (h0 : store),
        env_render
          (markdown_register (nunjucks_configure templatesPath false) (marked render_table))
          mainTemplate data h0 = (Normal emitted, h')
        ∧ res = Promised (Fulfilled (Str (unescape_quotes emitted)))
        ∧ ¬ Text.occurs "&quot;" (unescape_quotes emitted).
Proof.
  split; [apply TextFacts.unescape_quotes_clean|].
  intros mainTemplate templatesPath ramlObj res h h'.
  unfold processRamlObj, mbind, M_bind, alloc.
  repeat match goal with
         | |- context [match ?m with _ => _ end] => destruct m as [[?|?] ?] eqn:?
         end; try discriminate.
  intros [= <- <-]. eauto 10 using TextFacts.unescape_quotes_clean.
Qed.

(** C8: without a main template, [getDefaultConfig] builds its renderer
    around the bundled template and the package directory, whatever
    [templatesPath] was passed; with one, around the template and the path
    that were passed.  The renderer hands that path to
    [nunjucks.configure] and that template to [env.render]. *)
Theorem getDefaultConfig_template mainTemplate templatesPath (h : store) :
  ∃ cfg f (h' : store),
    getDefaultConfig mainTemplate templatesPath h = (Normal (Ref cfg), h')
    ∧ field h' cfg "processRamlObj" = Ref f
    ∧ fun_code h' (Ref f)
      = Some (if truthy mainTemplate
              then ProcessRamlObjCode mainTemplate templatesPath
              else ProcessRamlObjCode (Str "./lib/template.nunjucks") (Str dirname))
    ∧ (if truthy mainTemplate then True
       else ∀ other, getDefaultConfig mainTemplate other h
                     = getDefaultConfig mainTemplate templatesPath h)
    ∧ ∀ template path this ramlObj,
        apply (ProcessRamlObjCode template path) this ramlObj
        = processRamlObj template path ramlObj.
Proof.
  assert (∀ c : code,
    let f := fresh (dom h) in
    let h1 : store := <[f := function_object c]> h in
    let g := fresh (dom h1) in
    let h2 : store := <[g := function_object PostProcessHtmlCode]> h1 in
    let cfg := fresh (dom h2) in
    let o := Object PlainObject {[ "processRamlObj" := Ref f; "postProcessHtml" := Ref g ]} in
    field (<[cfg := o]> h2) cfg "processRamlObj" = Ref f
    ∧ fun_code (<[cfg := o]> h2) (Ref f) = Some c) as Hbuilt.
  { intros c f h1 g h2 cfg o.
    assert (g ≠ f) as Hgf.
    { intros Heq. apply (is_fresh (dom h1)). fold g. rewrite Heq.
      subst h1. rewrite dom_insert. set_solver. }
    assert (cfg ≠ f) as Hcf.
    { intros Heq. apply (is_fresh (dom h2)). fold cfg. rewrite Heq.
      subst h2 h1. rewrite !dom_insert. set_solver. }
    split.
    - unfold field. rewrite lookup_insert_eq. subst o. simpl.
      by rewrite lookup_insert_eq.
    - unfold fun_code. rewrite lookup_insert_ne by done.
      subst h2. rewrite lookup_insert_ne by done.
      subst h1. by rewrite lookup_insert_eq. }
  unfold getDefaultConfig.
  destruct (truthy mainTemplate); cbn [negb];
    (do 3 eexists; split; [reflexivity|]);
    (split; [apply Hbuilt|]); (split; [apply Hbuilt|]); done.
Qed.


End Facts.

Lemma render_with_renderer_witness :
  (render (H := Demo.collaborators) (Str "api.raml") (Ref 1%positive) Demo.full_store).1
  = Normal (Fulfilled (Str "[<x>]")).
Proof.
  epose proof (render_with_renderer (H := Demo.collaborators) (Str "api.raml") 1%positive
                 _ _ _ 2%positive (UserCode 0) "<x>" Demo.full_store) as Hw.
  edestruct Hw as (_ & _ & Hpost);
    [reflexivity | reflexivity | reflexivity | reflexivity
    | reflexivity | reflexivity | reflexivity |].
  rewrite (Hpost (UserCode 1)) by reflexivity. reflexivity.
Defined.

Lemma parser_rejection_propagates_witness :
  (render (H := Demo.collaborators) (Str "") (Ref 1%positive) Demo.full_store).1
  = Normal (Rejected (Str "empty document")).
Proof.
  erewrite (parser_rejection_propagates (H := Demo.collaborators) (Str "") (Ref 1%positive));
    reflexivity.
Defined.

Lemma render_without_renderer_witness :
  ∃ r, (render (H := Demo.collaborators) (Str "api.raml") (Ref 1%positive) Demo.bare_store).1
       = Normal (Fulfilled (Ref r)).
Proof.
  epose proof (render_without_renderer (H := Demo.collaborators) (Str "api.raml") 1%positive
                 _ _ Demo.bare_store) as Hw.
  edestruct Hw as (h3 & Hrender & _);
    [reflexivity | reflexivity | reflexivity | | reflexivity |].
  - vm_compute. discriminate.
  - rewrite Hrender. eauto.
Defined.


Lemma processRamlObj_unescapes_witness :
  ∃ emitted,
    (processRamlObj (H := Demo.collaborators) (Str "index.nunjucks") (Str ".")
       (Ref 1%positive) Demo.bare_store).1
    = Normal (Promised (Fulfilled (Str emitted)))
    ∧ ¬ Text.occurs "&quot;" emitted.
Proof.
  destruct (proj2 (processRamlObj_unescapes (H := Demo.collaborators) "")
              (Str "index.nunjucks") (Str ".") (Ref 1%positive) _ Demo.bare_store _ eq_refl)
    as (data & emitted & h0 & _ & Hres & Hclean).
  exists (unescape_quotes emitted). split; [|exact Hclean].
  rewrite <- Hres. reflexivity.
Defined.


End PipelineFacts.

(** * Further properties *)

(** ** The replacement of quote entities *)

Module TextMore.
Import Text TextFacts.

Lemma starts_with_inv p s : starts_with p s = true → ∃ post, s = p +:+ post.
Proof.
  revert s; induction p as [|a p IH]; intros s; [by exists s|].
  destruct s as [|b s]; [done|]. cbn [starts_with].
  destruct (Ascii.eqb_spec a b) as [->|]; [|done].
  intros [post ->]%IH. by exists post.
Qed.

Lemma occursb_occurs p s : occursb p s = true → occurs p s.
Proof.
  induction s as [|c s IH]; cbn [occursb].
  - rewrite orb_false_r. intros [post ->]%starts_with_inv. by exists "", post.
  - intros [Hhead|Htail]%orb_true_iff.
    + apply starts_with_inv in Hhead as [post ->]. by exists "", post.
    + destruct (IH Htail) as (pre & post & ->). by exists (String c pre), post.
Qed.

Lemma not_occurs_occursb p s : ¬ occurs p s → occursb p s = false.
Proof.
  intros Hno. destruct (occursb p s) eqn:E; [|done].
  by apply occursb_occurs in E.
Qed.

(** A text without a match is copied as it is. *)
Lemma replace_all_fixed p0 p r s :
  occursb (String p0 p) s = false → replace_all p0 p r s = s.
Proof.
  induction s as [|c s IH]; [by rewrite replace_all_nil|].
  cbn [occursb]. intros [Hhead Htail]%orb_false_iff.
  rewrite replace_all_cons, Hhead. by rewrite IH.
Qed.

Lemma skip_starts_with p s :
  starts_with p s = true →
  String.length (skip (String.length p) s) + String.length p = String.length s.
Proof.
  revert s; induction p as [|a p IH]; intros s; cbn [String.length skip]; [lia|].
  destruct s as [|b s]; [done|]. cbn [starts_with String.length].
  destruct (Ascii.eqb a b); [|done]. intros Hs%IH. lia.
Qed.

Lemma length_append (s t : string) :
  String.length (s +:+ t) = String.length s + String.length t.
Proof. induction s as [|c s IH]; push_append; cbn [String.length]; lia. Qed.

(** Each replaced match of a pattern of [n + 1] characters by one character
    shortens the text by [n]; nothing else changes its length. *)
Lemma replace_all_length p0 p q s :
  String.length (replace_all p0 p (String q "") s) ≤ String.length s
  ∧ (occursb (String p0 p) s = true →
     String.length (replace_all p0 p (String q "") s) + String.length p
     ≤ String.length s).
Proof.
  remember (String.length s) as n eqn:Hn. revert s Hn.
  induction n as [n IH] using lt_wf_ind; intros s ->.
  destruct s as [|c s].
  { rewrite replace_all_nil. split; [done|]. by cbn. }
  rewrite replace_all_cons. cbn [occursb].
  destruct (starts_with (String p0 p) (String c s)) eqn:Hm.
  - cbn [starts_with] in Hm. destruct (Ascii.eqb p0 c); [|done].
    apply skip_starts_with in Hm.
    destruct (IH (String.length (skip (String.length p) s))
                ltac:(cbn [String.length]; lia) _ eq_refl) as [Hle _].
    rewrite length_append. cbn [String.length] in *. lia.
  - cbn [orb String.length].
    destruct (IH (String.length s) ltac:(cbn [String.length]; lia) _ eq_refl)
      as [Hle Hlt].
    split; [lia|]. intros Hocc%Hlt. lia.
Qed.

(** X1: the replacement leaves a text as it is exactly when the text holds
    no [&quot;]. *)
Theorem unescape_quotes_fixed_iff html :
  unescape_quotes html = html ↔ ¬ occurs "&quot;" html.
Proof.
  split.
  - intros <-. apply unescape_quotes_clean.
  - intros Hno. by apply replace_all_fixed, not_occurs_occursb.
Qed.

(** X2: applying the replacement to its own output changes nothing. *)
Theorem unescape_quotes_idempotent html :
  unescape_quotes (unescape_quotes html) = unescape_quotes html.
Proof.
  apply replace_all_fixed, not_occurs_occursb, unescape_quotes_clean.
Qed.

(** X3: the output is never longer than the input, and it is shorter by at
    least five characters as soon as the input holds a [&quot;]. *)
Theorem unescape_quotes_length html :
  String.length (unescape_quotes html) ≤ String.length html
  ∧ (occurs "&quot;" html →
     String.length (unescape_quotes html) + 5 ≤ String.length html).
Proof.
  destruct (replace_all_length "&" "quot;" (Ascii.ascii_of_nat 34) html) as [Hle Hlt].
  split; [exact Hle|]. intros Hocc%occurs_occursb. by apply Hlt.
Qed.

Lemma unescape_quotes_length_witness :
  String.length (unescape_quotes "a&quot;b") + 5 ≤ String.length "a&quot;b".
Proof.
  apply (proj2 (unescape_quotes_length "a&quot;b")). by exists "a", "b".
Defined.

Lemma unescape_quotes_fixed_iff_witness : unescape_quotes "<p>a &amp; b</p>" = "<p>a &amp; b</p>".
Proof.
  apply (proj2 (unescape_quotes_fixed_iff "<p>a &amp; b</p>")).
  intros Hocc%TextFacts.occurs_occursb. discriminate Hocc.
Defined.

End TextMore.

(** ** The helpers on plain data, off the expected shapes *)

Module DataMore.
Import Data Spec TextFacts DataFacts.

Section More.

Context `{!Runtime}.

(** X4: on a RAML object that has no [securitySchemes] property, or has
    [null] there, [securitySchemeWithName] throws a TypeError. *)
Theorem securitySchemeWithName_missing_schemes props name :
  lookup_prop "securitySchemes" props = None
  ∨ lookup_prop "securitySchemes" props = Some VNull →
  securitySchemeWithName (VObj props) name = Throw TypeError.
Proof.
  unfold securitySchemeWithName. cbn [get_prop].
  by intros [-> | ->].
Qed.

Lemma scan_list_sound name entries found :
  scan_list name entries = Ret found →
  (truthy_member found = true
   ∧ ∃ pre entry post,
       entries = pre ++ entry :: post
       ∧ forallb (falsy_at name) pre = true
       ∧ read entry name = Ret found)
  ∨ (found = Value VUndefined ∧ forallb (falsy_at name) entries = true).
Proof.
  induction entries as [|entry entries IH]; cbn [scan_list].
  - intros [= <-]. by right.
  - destruct (read entry name) as [v|] eqn:Hv; cbn [mbind result_bind]; [|done].
    destruct (truthy_member v) eqn:Htruthy.
    + intros [= <-]. left. split; [done|]. by exists [], entry, entries.
    + assert (falsy_at name entry = true) as Hfalsy
        by (unfold falsy_at; by rewrite Hv, Htruthy).
      intros [[Hfound (pre & e & post & -> & Hpre & He)]|[-> Hall]]%IH.
      * left. split; [done|]. exists (entry :: pre), e, post.
        cbn [forallb]. by rewrite Hfalsy, Hpre.
      * right. cbn [forallb]. by rewrite Hfalsy, Hall.
Qed.

(** X5: whatever [securitySchemeWithName] returns is either something
    truthy that a property read, own property first and prototype chain
    next, finds under the name in an entry all of whose predecessors give a
    falsy value there, or [undefined] after every entry gave a falsy value;
    it never returns a falsy value other than [undefined]. *)
Theorem securitySchemeWithName_sound ramlObj entries name found :
  get_prop ramlObj "securitySchemes" = Ret (VArr entries) →
  securitySchemeWithName ramlObj name = Ret found →
  (truthy_member found = true
   ∧ ∃ pre entry post,
       entries = pre ++ entry :: post
       ∧ forallb (falsy_at name) pre = true
       ∧ read entry name = Ret found)
  ∨ (found = Value VUndefined ∧ forallb (falsy_at name) entries = true).
Proof.
  intros Hget. rewrite (securitySchemeWithName_list _ _ _ Hget).
  apply scan_list_sound.
Qed.

(** X6: an entry that is [null] or [undefined], reached after entries that
    all give a falsy value under the name (own or inherited), makes
    [securitySchemeWithName] throw a TypeError, whatever the later entries
    hold. *)
Theorem securitySchemeWithName_nullish_entry ramlObj pre entry post name :
  get_prop ramlObj "securitySchemes" = Ret (VArr (pre ++ entry :: post)) →
  forallb (falsy_at name) pre = true →
  entry = VNull ∨ entry = VUndefined →
  securitySchemeWithName ramlObj name = Throw TypeError.
Proof.
  intros Hget Hpre Hentry. rewrite (securitySchemeWithName_list _ _ _ Hget).
  rewrite scan_list_skip by done. by destruct Hentry as [-> | ->].
Qed.

Lemma lookup_prop_app_l key v pre rest :
  NoDup (map fst pre) → (key, v) ∈ pre →
  lookup_prop key (pre ++ rest) = Some v.
Proof.
  intros Hnd (before & after & ->)%list_elem_of_split.
  rewrite <- app_assoc. cbn [app]. apply lookup_prop_first.
  rewrite map_app in Hnd. cbn [map fst] in Hnd.
  apply NoDup_app in Hnd as (_ & Hdisj & _).
  intros Hin. apply (Hdisj _ Hin). left.
Qed.

Lemma render_keys_app securedBy keys keys' out :
  render_keys securedBy (keys ++ keys') out
  = (out' ← render_keys securedBy keys out; render_keys securedBy keys' out').
Proof.
  revert out; induction keys as [|key keys IH]; intros out; [done|].
  cbn [app render_keys].
  destruct (render_key securedBy key out) as [out'|]; cbn [mbind result_bind]; [|done].
  apply IH.
Qed.

Lemma scheme_props_lookup entries rest :
  NoDup (map fst entries) →
  Forall (λ entry, lookup_prop entry.1 (scheme_props entries ++ rest)
                   = Some (VObj [("scopes", VArr (map VStr entry.2))])) entries.
Proof.
  intros Hnd. apply Forall_forall. intros [key scopes] Hin. cbn [fst snd].
  apply lookup_prop_app_l.
  - unfold scheme_props. by rewrite map_map.
  - unfold scheme_props. apply list_elem_of_fmap.
    by exists (key, scopes).
Qed.

Lemma concat_fragments_empty entries :
  Text.concat (map scheme_fragment entries) = "" → entries = [].
Proof.
  destruct entries as [|entry entries]; [done|].
  cbn [map Text.concat]. unfold scheme_fragment. by rewrite !append_cons.
Qed.

Lemma lookup_prop_other key name v :
  name ≠ key → lookup_prop key [(name, v)] = None.
Proof. intros Hne. cbn [lookup_prop]. by destruct (String.eqb_spec name key). Qed.

Lemma shadowed_or_not (props : list (string * value)) :
  is_Some (lookup_prop "hasOwnProperty" props)
  ∨ lookup_prop "hasOwnProperty" props = None.
Proof. destruct (lookup_prop _ props); [left; by eexists|by right]. Qed.

(** X7: [renderSecuredBy] gives the empty text for [null], and for a
    requirement object exactly when the object has no scheme. *)
Theorem renderSecuredBy_empty (entries : list (string * list string)) :
  NoDup (map fst entries) →
  renderSecuredBy VNull = Ret ""
  ∧ (renderSecuredBy (requirement entries) = Ret "" ↔ entries = []).
Proof.
  intros Hnd. split; [done|].
  destruct (shadowed_or_not (scheme_props entries)) as [Hown|Hown].
  - change (requirement entries) with (VObj (scheme_props entries)).
    rewrite (renderSecuredBy_shadowed _ Hown). split; [done|].
    intros ->. by destruct Hown.
  - unfold renderSecuredBy, requirement. cbn [typeof_object for_in_keys].
    rewrite map_map. cbn [fst].
    pose proof (scheme_props_lookup entries [] Hnd) as Hlookup.
    rewrite app_nil_r in Hlookup.
    rewrite (render_keys_schemes _ entries "" Hown Hlookup). rewrite append_nil.
    split.
    + intros [= Hempty]. by apply concat_fragments_empty.
    + by intros ->.
Qed.

Lemma render_key_missing_scopes props key scheme out :
  lookup_prop "hasOwnProperty" props = None →
  lookup_prop key props = Some scheme →
  scopes_missing scheme = true →
  render_key (VObj props) key out = Throw TypeError.
Proof.
  intros Hown Hkey Hmissing. unfold render_key.
  rewrite own_key_inherited by done. cbn [mbind result_bind has_own_property].
  rewrite bool_decide_eq_true_2 by eauto.
  cbn [get_prop]. rewrite Hkey.
  cbn [or_undefined mbind result_bind]. unfold scopes_missing in Hmissing.
  destruct (get_prop scheme "scopes") as [[]|[]]; by cbn [mbind result_bind].
Qed.

(** X8: a scheme whose value has no [scopes] (an object without the
    property, or [null]) makes [renderSecuredBy] throw a TypeError, also
    after schemes that render well; nothing of the fragment is returned. *)
Theorem renderSecuredBy_missing_scopes entries key scheme rest :
  NoDup (map fst entries) →
  key ∉ map fst entries →
  scopes_missing scheme = true →
  renderSecuredBy (VObj (scheme_props entries ++ (key, scheme) :: rest))
  = Throw TypeError.
Proof.
  intros Hnd Hkey Hmissing.
  destruct (shadowed_or_not (scheme_props entries ++ (key, scheme) :: rest))
    as [Hown|Hown]; [by apply renderSecuredBy_shadowed|].
  unfold renderSecuredBy. cbn [typeof_object for_in_keys].
  rewrite map_app. cbn [map fst]. rewrite render_keys_app.
  replace (map fst (scheme_props entries)) with (map fst entries)
    by (unfold scheme_props; by rewrite map_map).
  rewrite (render_keys_schemes _ entries "" Hown)
    by by apply scheme_props_lookup.
  cbn [mbind result_bind render_keys].
  rewrite (render_key_missing_scopes _ key scheme); [done|done| |done].
  apply lookup_prop_first. unfold scheme_props. by rewrite map_map.
Qed.


Lemma collect_untexted before scope after :
  is_Some (lookup_prop "toString" scope) →
  collect (map to_string (map VStr before ++ VObj scope :: after)) = Throw TypeError.
Proof.
  intros [v Hscope]. induction before as [|text before IH].
  - cbn [map app collect to_string]. by rewrite Hscope.
  - cbn [map app collect to_string mbind result_bind]. by rewrite IH.
Qed.

(** An element without a text stops the inner loop. *)
Lemma render_scopes_untexted items count index out :
  index + count = length items →
  collect (map to_string (drop index items)) = Throw TypeError →
  render_scopes (VArr items) index count out = Throw TypeError.
Proof.
  revert index out; induction count as [|count IH]; intros index out Hlen.
  - by rewrite drop_ge by lia.
  - assert (is_Some (items !! index)) as [scope Hscope]
      by (apply lookup_lt_is_Some_2; lia).
    rewrite (drop_S _ _ _ Hscope). cbn [render_scopes get_index map collect].
    rewrite Hscope. cbn [or_undefined mbind result_bind].
    destruct (to_string scope) as [text|[]]; cbn [mbind result_bind]; [|done].
    destruct (collect (map to_string (drop (S index) items))) as [rest|[]] eqn:Hrest;
      cbn [mbind result_bind]; [done|].
    intros _. by apply IH; [lia|].
Qed.

(** X25: a scope that is an object with an own [toString] property, which
    holds data and cannot be called, has no text: [renderSecuredBy] throws a
    TypeError instead of writing the list. *)
Theorem renderSecuredBy_scope_without_text name sprops before scope after :
  name ≠ "hasOwnProperty" →
  lookup_prop "scopes" sprops = Some (VArr (map VStr before ++ VObj scope :: after)) →
  is_Some (lookup_prop "toString" scope) →
  renderSecuredBy (VObj [(name, VObj sprops)]) = Throw TypeError.
Proof.
  intros Hname Hscopes Hscope.
  unfold renderSecuredBy. cbn [typeof_object for_in_keys map fst render_keys].
  unfold render_key.
  rewrite own_key_inherited by (by apply lookup_prop_other).
  cbn [mbind result_bind has_own_property]. rewrite lookup_prop_head.
  rewrite bool_decide_eq_true_2 by eauto.
  cbn [get_prop]. rewrite lookup_prop_head.
  cbn [or_undefined mbind result_bind get_prop]. rewrite Hscopes.
  cbn [or_undefined mbind result_bind get_prop].
  change (String.eqb "length" "length") with true. cbn iota.
  cbn [mbind result_bind]. rewrite loop_count_length.
  destruct (map VStr before ++ VObj scope :: after) as [|item items] eqn:Hitems;
    [by destruct before|].
  change (truthy _) with true. cbn iota. cbn [mbind result_bind].
  rewrite render_scopes_untexted; [done|done|].
  rewrite drop_0, <- Hitems. by apply collect_untexted.
Qed.

Lemma char_at_skip s index :
  index < String.length s →
  ∃ c, char_at s index = Some (String c "")
       ∧ Text.skip index s = String c (Text.skip (S index) s).
Proof.
  revert index; induction s as [|a s IH]; intros index; cbn [String.length]; [lia|].
  destruct index as [|index]; [by exists a|].
  intros Hlt. destruct (IH index) as (c & Hc & Hskip); [lia|].
  exists c. by cbn [char_at Text.skip].
Qed.

Lemma skip_all s index : String.length s ≤ index → Text.skip index s = "".
Proof.
  revert index; induction s as [|a s IH]; intros [|index]; cbn [String.length Text.skip];
    try done; try lia.
  intros Hle. apply IH. lia.
Qed.

(** On a string, the inner loop appends one list item per character. *)
Lemma render_scopes_characters s count index out :
  index + count = String.length s →
  render_scopes (VStr s) index count out =
  Ret (out +:+ Text.concat (map (λ c, "<li>" +:+ c +:+ "</li>")
                                 (characters (Text.skip index s)))).
Proof.
  revert index out; induction count as [|count IH]; intros index out Hlen.
  - rewrite skip_all by lia. cbn [characters map Text.concat render_scopes].
    by rewrite append_empty.
  - destruct (char_at_skip s index) as (c & Hc & Hskip); [lia|].
    rewrite Hskip. cbn [render_scopes get_index characters map Text.concat].
    rewrite Hc. cbn [fmap option_fmap option_map or_undefined mbind result_bind to_string].
    rewrite IH by lia. by rewrite !append_assoc.
Qed.

(** X10: when [scopes] is a string instead of an array, for a scheme not
    named [hasOwnProperty], the loop runs over its characters: the list has
    one item per character, and the empty string gives the bold name
    alone. *)
Theorem renderSecuredBy_string_scopes name s :
  name ≠ "hasOwnProperty" →
  renderSecuredBy (VObj [(name, VObj [("scopes", VStr s)])])
  = Ret ("<b>" +:+ name +:+ "</b>" +:+
         match s with
         | EmptyString => ""
         | _ => " with scopes:<ul>"
                  +:+ Text.concat (map (λ c, "<li>" +:+ c +:+ "</li>") (characters s))
                  +:+ "</ul>"
         end).
Proof.
  intros Hname.
  unfold renderSecuredBy. cbn [typeof_object for_in_keys map fst render_keys].
  unfold render_key.
  rewrite own_key_inherited by (by apply lookup_prop_other).
  cbn [mbind result_bind has_own_property]. rewrite lookup_prop_head.
  rewrite bool_decide_eq_true_2 by eauto.
  cbn [get_prop]. rewrite lookup_prop_head.
  cbn [or_undefined mbind result_bind get_prop]. rewrite lookup_prop_head.
  cbn [or_undefined mbind result_bind get_prop].
  change (String.eqb "length" "length") with true. cbn iota.
  cbn [mbind result_bind]. rewrite append_nil.
  destruct s as [|c s].
  - cbn [String.length truthy Z.of_nat Z.eqb negb]. by rewrite append_empty.
  - change (truthy _) with true. cbn iota. rewrite loop_count_length.
    cbn [mbind result_bind].
    rewrite render_scopes_characters by done. cbn [mbind result_bind Text.skip].
    by rewrite !append_assoc.
Qed.

(** X24: for a requirement object mapping distinct scheme names, none of
    them [hasOwnProperty], to their scopes, the fragment is the
    concatenation, scheme by scheme, of the name in bold followed, when the
    scope list is not empty, by the unordered list of the scope names; the
    two sample requirements give the two sample fragments; and a bare string
    is put in bold. *)
Theorem renderSecuredBy_schemes (entries : list (string * list string)) (name : string) :
  NoDup (map fst entries) →
  "hasOwnProperty" ∉ map fst entries →
  renderSecuredBy (requirement entries) = Ret (Text.concat (map scheme_fragment entries))
  ∧ renderSecuredBy (VObj [("oauth2", VObj [("scopes", VArr [VStr "read"; VStr "write"])])])
    = Ret "<b>oauth2</b> with scopes:<ul><li>read</li><li>write</li></ul>"
  ∧ renderSecuredBy (VObj [("basic", VObj [("scopes", VArr [])])]) = Ret "<b>basic</b>"
  ∧ renderSecuredBy (VStr name) = Ret ("<b>" +:+ name +:+ "</b>").
Proof.
  intros Hnd Hown. repeat split; try reflexivity.
  unfold renderSecuredBy, requirement. cbn [typeof_object for_in_keys].
  rewrite map_map. cbn [fst].
  rewrite (render_keys_schemes _ entries "").
  - by rewrite append_nil.
  - apply lookup_prop_unkeyed. by rewrite map_map.
  - by apply (requirement_lookup _ Hnd []).
Qed.

End More.

Lemma securitySchemeWithName_missing_schemes_witness :
  securitySchemeWithName (H := sample_runtime) (VObj [("title", VStr "api")]) "oauth2"
  = Throw TypeError.
Proof.
  apply (securitySchemeWithName_missing_schemes (H := sample_runtime)
           [("title", VStr "api")] "oauth2").
  left. reflexivity.
Defined.

Lemma securitySchemeWithName_sound_witness :
  ∃ pre entry post,
    [VObj []; VObj [("valueOf", VStr "x")]] = pre ++ entry :: post
    ∧ forallb (falsy_at (H := sample_runtime) "valueOf") pre = true
    ∧ read (H := sample_runtime) entry "valueOf" = Ret (Builtin (VObj []) "valueOf").
Proof.
  destruct (securitySchemeWithName_sound (H := sample_runtime)
              (VObj [("securitySchemes", VArr [VObj []; VObj [("valueOf", VStr "x")]])])
              _ "valueOf" (Builtin (VObj []) "valueOf") eq_refl eq_refl)
    as [[_ Hfound]|[Hundefined _]].
  - exact Hfound.
  - discriminate Hundefined.
Defined.

Lemma securitySchemeWithName_nullish_entry_witness :
  securitySchemeWithName (H := sample_runtime)
    (VObj [("securitySchemes", VArr [VObj [("basic", VStr "b")]; VNull; oauth2_entry])])
    "oauth2"
  = Throw TypeError.
Proof.
  apply (securitySchemeWithName_nullish_entry (H := sample_runtime) _
           [VObj [("basic", VStr "b")]] VNull [oauth2_entry] "oauth2");
    [reflexivity|reflexivity|by left].
Defined.

Lemma renderSecuredBy_empty_witness :
  renderSecuredBy (H := sample_runtime) (requirement [("basic", [])]) ≠ Ret "".
Proof.
  intros Hempty.
  assert (NoDup ["basic"]) as Hnd
    by (apply (bool_decide_unpack (NoDup ["basic"])); vm_compute; exact I).
  apply (proj2 (renderSecuredBy_empty (H := sample_runtime) [("basic", [])] Hnd)) in Hempty.
  discriminate Hempty.
Defined.

Lemma renderSecuredBy_missing_scopes_witness :
  renderSecuredBy (H := sample_runtime)
    (VObj [("oauth2", VObj [("scopes", VArr [VStr "read"])]);
           ("basic", VObj []); ("digest", VNull)])
  = Throw TypeError.
Proof.
  apply (renderSecuredBy_missing_scopes (H := sample_runtime) [("oauth2", ["read"])]
           "basic" (VObj []) [("digest", VNull)]).
  - apply (bool_decide_unpack (NoDup ["oauth2"])). vm_compute. exact I.
  - apply (bool_decide_unpack ("basic" ∉ ["oauth2"])). vm_compute. exact I.
  - reflexivity.
Defined.


Lemma renderSecuredBy_scope_without_text_witness :
  renderSecuredBy (H := sample_runtime)
    (VObj [("oauth2", VObj [("scopes", VArr [VStr "read"; VObj [("toString", VStr "x")]])])])
  = Throw TypeError.
Proof.
  apply (renderSecuredBy_scope_without_text (H := sample_runtime) "oauth2"
           [("scopes", VArr [VStr "read"; VObj [("toString", VStr "x")]])]
           ["read"] [("toString", VStr "x")] []).
  - apply (bool_decide_unpack ("oauth2" ≠ "hasOwnProperty")). vm_compute. exact I.
  - reflexivity.
  - by eexists.
Defined.

Lemma renderSecuredBy_string_scopes_witness :
  renderSecuredBy (H := sample_runtime) (VObj [("oauth2", VObj [("scopes", VStr "rw")])])
  = Ret "<b>oauth2</b> with scopes:<ul><li>r</li><li>w</li></ul>".
Proof.
  apply (renderSecuredBy_string_scopes (H := sample_runtime) "oauth2" "rw").
  apply (bool_decide_unpack ("oauth2" ≠ "hasOwnProperty")). vm_compute. exact I.
Defined.

Lemma renderSecuredBy_schemes_witness :
  renderSecuredBy (H := sample_runtime)
    (VObj [("oauth2", VObj [("scopes", VArr [VStr "read"; VStr "write"])]);
           ("basic", VObj [("scopes", VArr [])])])
  = Ret "<b>oauth2</b> with scopes:<ul><li>read</li><li>write</li></ul><b>basic</b>".
Proof.
  refine (proj1 (renderSecuredBy_schemes (H := sample_runtime)
                   [("oauth2", ["read"; "write"]); ("basic", [])] "anonymous" _ _)).
  - apply (bool_decide_unpack (NoDup ["oauth2"; "basic"])). vm_compute. exact I.
  - apply (bool_decide_unpack ("hasOwnProperty" ∉ ["oauth2"; "basic"])). vm_compute. exact I.
Defined.

End DataMore.

(** ** The orchestrator off the main path *)

Module PipelineMore.
Import Pipeline Stages PipelineFacts.

Section More.

Context `{!Collaborators}.

Lemma render_resolved source c o v (h h2 : store) :
  h !! c = Some o →
  raml2obj_parse source (<[c := with_prop "raml2HtmlVersion" (Str version) o]> h)
  = (Normal (Promised (Fulfilled v)), h2) →
  render source (Ref c) h = settle (on_parsed (Ref c) v h2).
Proof.
  intros Hc Hparse.
  rewrite (render_stamped _ _ _ _ _ (stamp_config_ref _ _ _ Hc)).
  by erewrite bind_normal by exact Hparse.
Qed.

Lemma dispatch_none c ramlObj (h : store) :
  truthy (field h c "processRamlObj") = false →
  dispatch (Ref c) ramlObj h = (Normal (Plain ramlObj), h).
Proof.
  intros Hf. unfold dispatch. erewrite bind_normal by reflexivity. by rewrite Hf.
Qed.

Lemma dispatch_call c ramlObj (h : store) :
  truthy (field h c "processRamlObj") = true →
  dispatch (Ref c) ramlObj h
  = (rendered ← call (field h c "processRamlObj") (Ref c) ramlObj;
     p ← then_ rendered (on_rendered (Ref c));
     mret (Promised p)) h.
Proof.
  intros Hf. unfold dispatch. erewrite bind_normal by reflexivity. by rewrite Hf.
Qed.

Lemma call_code f c this arg (h : store) :
  fun_code h f = Some c → call f this arg h = apply c this arg h.
Proof. unfold call. by intros ->. Qed.

Lemma call_not_function f this arg (h : store) :
  fun_code h f = None → call f this arg h = throw_type_error h.
Proof. unfold call. by intros ->. Qed.

(** X11: without a configuration (an absent or otherwise falsy second
    argument), [render] makes a new object, different from every object of
    the caller, stamps it, and resolves to the parsed object with that new
    object, holding [raml2HtmlVersion] alone, as its [config]. *)
Theorem render_absent_config source config c r ro (h h2 : store) :
  truthy config = false →
  c = fresh (dom h) →
  raml2obj_parse source (<[c := Object PlainObject {[ "raml2HtmlVersion" := Str version ]}]> h)
  = (Normal (Promised (Fulfilled (Ref r))), h2) →
  h2 !! r = Some ro →
  r ≠ c →
  h2 !! c = Some (Object PlainObject {[ "raml2HtmlVersion" := Str version ]}) →
  h !! c = None
  ∧ render source config h
    = (Normal (Fulfilled (Ref r)), <[r := with_prop "config" (Ref c) ro]> h2)
  ∧ (<[r := with_prop "config" (Ref c) ro]> h2) !! c
    = Some (Object PlainObject {[ "raml2HtmlVersion" := Str version ]}).
Proof.
  intros Hconfig -> Hparse Hr Hrc Hc2.
  split; [apply fresh_unused|]. split; [|by rewrite lookup_insert_ne].
  rewrite (render_stamped _ _ _ _ _ (stamp_config_absent _ _ Hconfig)).
  erewrite bind_normal by exact Hparse. unfold then_.
  rewrite (on_parsed_ref _ _ _ _ Hr), dispatch_none; [done|].
  unfold field. rewrite lookup_insert_ne, Hc2 by done. done.
Qed.

(** X12: a configuration that is truthy but not an object (a string, a
    number, [true]) makes [render] throw a TypeError at line 21: no promise
    is returned and the parser is not called. *)
Theorem render_primitive_config_throws source config (h : store) :
  acceptable_config h config = false →
  render source config h
  = (Throw (Ref (fresh (dom h))), <[fresh (dom h) := type_error]> h).
Proof.
  unfold acceptable_config. intros [Hc Hobj]%orb_false_iff.
  apply negb_false_iff in Hc.
  assert (set_prop config "raml2HtmlVersion" (Str version) h
          = (Throw (Ref (fresh (dom h))), <[fresh (dom h) := type_error]> h)) as Hset.
  { destruct config as [| | | | |c]; try done.
    apply bool_decide_eq_false_1 in Hobj. unfold set_prop.
    destruct (h !! c) eqn:Hl; [by destruct Hobj|done]. }
  unfold render. apply bind_throw.
  unfold stamp_config. rewrite Hc.
  erewrite bind_normal by reflexivity. by apply bind_throw.
Qed.

(** X13: when the configuration has no (truthy) [processRamlObj], [render]
    resolves to the parsed object whatever [postProcessHtml] is: the
    post-processor is consulted only after a renderer. *)
Theorem render_skips_post_processor source c o r ro (h h2 : store) :
  h !! c = Some o →
  raml2obj_parse source (<[c := with_prop "raml2HtmlVersion" (Str version) o]> h)
  = (Normal (Promised (Fulfilled (Ref r))), h2) →
  h2 !! r = Some ro →
  truthy (field (<[r := with_prop "config" (Ref c) ro]> h2) c "processRamlObj") = false →
  render source (Ref c) h
  = (Normal (Fulfilled (Ref r)), <[r := with_prop "config" (Ref c) ro]> h2).
Proof.
  intros Hc Hparse Hr Hf.
  rewrite (render_resolved _ _ _ _ _ _ Hc Hparse), (on_parsed_ref _ _ _ _ Hr).
  by rewrite dispatch_none.
Qed.

(** X14: a renderer that throws, or whose promise is rejected, makes the
    promise of [render] rejected with the same value, and a renderer whose
    promise never settles leaves it pending; in each case the store is the
    one the renderer left, the post-processor not being called. *)
Theorem render_renderer_failure source c o r ro f res s (h h2 h3 h4 : store) :
  h !! c = Some o →
  raml2obj_parse source (<[c := with_prop "raml2HtmlVersion" (Str version) o]> h)
  = (Normal (Promised (Fulfilled (Ref r))), h2) →
  h2 !! r = Some ro →
  h3 = <[r := with_prop "config" (Ref c) ro]> h2 →
  truthy (field h3 c "processRamlObj") = true →
  fun_code h3 (field h3 c "processRamlObj") = Some f →
  apply f (Ref c) (Ref r) h3 = (res, h4) →
  passed_on res = Some s →
  render source (Ref c) h = (Normal s, h4).
Proof.
  intros Hc Hparse Hr -> Hf Hcode Hres Hpassed.
  rewrite (render_resolved _ _ _ _ _ _ Hc Hparse), (on_parsed_ref _ _ _ _ Hr).
  rewrite dispatch_call by done.
  destruct res as [[v|[v|e|]]|e]; simplify_eq/=.
  - erewrite bind_normal by (rewrite (call_code _ _ _ _ _ Hcode); exact Hres).
    done.
  - erewrite bind_normal by (rewrite (call_code _ _ _ _ _ Hcode); exact Hres).
    done.
  - erewrite bind_throw by (rewrite (call_code _ _ _ _ _ Hcode); exact Hres).
    done.
Qed.

(** X15: a [processRamlObj] that is truthy but not a function makes the
    promise of [render] rejected with a new TypeError. *)
Theorem render_renderer_not_function source c o r ro (h h2 h3 : store) :
  h !! c = Some o →
  raml2obj_parse source (<[c := with_prop "raml2HtmlVersion" (Str version) o]> h)
  = (Normal (Promised (Fulfilled (Ref r))), h2) →
  h2 !! r = Some ro →
  h3 = <[r := with_prop "config" (Ref c) ro]> h2 →
  truthy (field h3 c "processRamlObj") = true →
  fun_code h3 (field h3 c "processRamlObj") = None →
  render source (Ref c) h
  = (Normal (Rejected (Ref (fresh (dom h3)))), <[fresh (dom h3) := type_error]> h3).
Proof.
  intros Hc Hparse Hr -> Hf Hcode.
  rewrite (render_resolved _ _ _ _ _ _ Hc Hparse), (on_parsed_ref _ _ _ _ Hr).
  rewrite dispatch_call by done.
  by erewrite bind_throw by (by apply call_not_function).
Qed.

(** X16: after a renderer that resolved, a [postProcessHtml] that is truthy
    but not a function makes the promise of [render] rejected with a new
    TypeError; the rendered text is lost. *)
Theorem render_post_processor_not_function source c o r ro f x (h h2 h3 h4 : store) :
  h !! c = Some o →
  raml2obj_parse source (<[c := with_prop "raml2HtmlVersion" (Str version) o]> h)
  = (Normal (Promised (Fulfilled (Ref r))), h2) →
  h2 !! r = Some ro →
  h3 = <[r := with_prop "config" (Ref c) ro]> h2 →
  truthy (field h3 c "processRamlObj") = true →
  fun_code h3 (field h3 c "processRamlObj") = Some f →
  apply f (Ref c) (Ref r) h3 = (Normal (Promised (Fulfilled x)), h4) →
  truthy (field h4 c "postProcessHtml") = true →
  fun_code h4 (field h4 c "postProcessHtml") = None →
  render source (Ref c) h
  = (Normal (Rejected (Ref (fresh (dom h4)))), <[fresh (dom h4) := type_error]> h4).
Proof.
  intros Hc Hparse Hr -> Hf Hcode Hx Hg Hgcode.
  rewrite (render_resolved _ _ _ _ _ _ Hc Hparse), (on_parsed_ref _ _ _ _ Hr).
  rewrite dispatch_call by done.
  erewrite bind_normal by (rewrite (call_code _ _ _ _ _ Hcode); exact Hx).
  unfold then_, on_rendered. unfold mbind at 1, M_bind at 1.
  erewrite bind_normal by reflexivity. rewrite Hg.
  by rewrite call_not_function.
Qed.

(** X17: when the parser resolves to something that is not an object
    ([undefined], [null], a string), line 24 throws inside the callback: the
    promise of [render] is rejected with a new TypeError and no renderer is
    called. *)
Theorem render_parsed_primitive source c o v (h h2 : store) :
  h !! c = Some o →
  raml2obj_parse source (<[c := with_prop "raml2HtmlVersion" (Str version) o]> h)
  = (Normal (Promised (Fulfilled v)), h2) →
  primitive v = true →
  render source (Ref c) h
  = (Normal (Rejected (Ref (fresh (dom h2)))), <[fresh (dom h2) := type_error]> h2).
Proof.
  intros Hc Hparse Hv.
  rewrite (render_resolved _ _ _ _ _ _ Hc Hparse).
  unfold on_parsed.
  erewrite bind_throw; [reflexivity|]. by destruct v.
Qed.

Lemma fresh_after_insert (h : store) l o :
  fresh (dom (<[l := o]> h)) ≠ l ∧ h !! fresh (dom (<[l := o]> h)) = None.
Proof.
  pose proof (is_fresh (dom (<[l := o]> h))) as Hfresh.
  set (l' := fresh (dom (<[l := o]> h))) in *. clearbody l'.
  rewrite dom_insert_L in Hfresh. split.
  - intros Heq. apply Hfresh. rewrite Heq. set_solver.
  - apply not_elem_of_dom. set_solver.
Qed.

Lemma fun_code_truthy (h : store) v c : fun_code h v = Some c → truthy v = true.
Proof. by destruct v. Qed.

(** X18: [getDefaultConfig] never fails and changes no existing object: it
    adds exactly three new objects, pairwise distinct: the configuration,
    holding [processRamlObj] and [postProcessHtml] and nothing else, and one
    function for each. *)
Theorem getDefaultConfig_fresh mainTemplate templatesPath (h : store) :
  ∃ cfg f g (h' : store),
    getDefaultConfig mainTemplate templatesPath h = (Normal (Ref cfg), h')
    ∧ h' !! cfg = Some (Object PlainObject
                          {[ "processRamlObj" := Ref f; "postProcessHtml" := Ref g ]})
    ∧ is_Some (fun_code h' (Ref f))
    ∧ fun_code h' (Ref g) = Some PostProcessHtmlCode
    ∧ h !! cfg = None ∧ h !! f = None ∧ h !! g = None
    ∧ f ≠ g ∧ cfg ≠ f ∧ cfg ≠ g
    ∧ dom h' = dom h ∪ {[cfg; f; g]}
    ∧ ∀ l, is_Some (h !! l) → h' !! l = h !! l.
Proof.
  unfold getDefaultConfig.
  set (c := if negb (truthy mainTemplate) then _ else _). destruct c as [m tp].
  set (f := fresh (dom h)).
  set (h1 := <[f := function_object (ProcessRamlObjCode m tp)]> h).
  set (g := fresh (dom h1)).
  set (h2 := <[g := function_object PostProcessHtmlCode]> h1).
  set (cfg := fresh (dom h2)).
  pose proof (fresh_unused h) as Hf. fold f in Hf.
  destruct (fresh_after_insert h f (function_object (ProcessRamlObjCode m tp)))
    as [Hgf Hg]. fold h1 g in Hgf, Hg.
  destruct (fresh_after_insert h1 g (function_object PostProcessHtmlCode))
    as [Hcg Hc1]. fold h2 cfg in Hcg, Hc1.
  assert (cfg ≠ f) as Hcf.
  { intros Heq. rewrite Heq in Hc1. subst h1. by rewrite lookup_insert_eq in Hc1. }
  assert (h !! cfg = None) as Hc.
  { subst h1. by rewrite lookup_insert_ne in Hc1. }
  exists cfg, f, g. eexists. split; [reflexivity|].
  split; [by rewrite lookup_insert_eq|].
  split.
  { unfold fun_code. rewrite lookup_insert_ne by done. subst h2.
    rewrite lookup_insert_ne by done. subst h1. rewrite lookup_insert_eq.
    by eexists. }
  split.
  { unfold fun_code. rewrite lookup_insert_ne by done. subst h2.
    by rewrite lookup_insert_eq. }
  repeat (split; [done|]).
  split.
  { assert (dom h1 = {[f]} ∪ dom h) as Hdom1 by apply dom_insert_L.
    assert (dom h2 = {[g]} ∪ dom h1) as Hdom2 by apply dom_insert_L.
    transitivity (dom (<[cfg := Object PlainObject
                                  {[ "processRamlObj" := Ref f;
                                     "postProcessHtml" := Ref g ]}]> h2));
      [reflexivity|].
    rewrite dom_insert_L, Hdom2, Hdom1. apply set_eq. intros l.
    rewrite !elem_of_union, !elem_of_singleton. tauto. }
  intros l [o Hl].
  assert (cfg ≠ l ∧ g ≠ l ∧ f ≠ l) as (? & ? & ?) by (repeat split; congruence).
  subst h2 h1. by rewrite !lookup_insert_ne.
Qed.

Lemma processRamlObj_stages mainTemplate templatesPath ramlObj (h : store) :
  processRamlObj mainTemplate templatesPath ramlObj h
  = (install_helpers ramlObj;; render_template mainTemplate templatesPath ramlObj) h.
Proof.
  unfold processRamlObj, install_helpers, render_template, mbind, M_bind, alloc.
  repeat match goal with
         | |- context [match ?m with _ => _ end] => destruct m as [[?|?] ?] eqn:?
         end; simplify_eq/=; done.
Qed.

Lemma install_helpers_ref r ro (h : store) :
  h !! r = Some ro →
  let f := fresh (dom h) in
  let h1 : store := <[fresh (dom h) := function_object (HelperCode SecuritySchemeWithName)]> h in
  let h2 : store := <[r := with_prop "securitySchemeWithName" (Ref f) ro]> h1 in
  let g := fresh (dom h2) in
  let h3 : store := <[g := function_object (HelperCode RenderSecuredBy)]> h2 in
  install_helpers (Ref r) h
  = (Normal (),
     <[r := with_prop "renderSecuredBy" (Ref g)
              (with_prop "securitySchemeWithName" (Ref f) ro)]> h3)
  ∧ r ≠ f ∧ r ≠ g ∧ g ≠ f ∧ h !! f = None ∧ h !! g = None.
Proof.
  intros Hr f h1 h2 g h3.
  pose proof (fresh_unused h) as Hf. fold f in Hf.
  assert (r ≠ f) as Hrf by congruence.
  pose proof (fresh_unused h2) as Hg. fold g in Hg.
  assert (r ≠ g) as Hrg.
  { intros Heq. rewrite <- Heq in Hg. subst h2. by rewrite lookup_insert_eq in Hg. }
  assert (g ≠ f) as Hgf.
  { intros Heq. rewrite Heq in Hg. subst h2 h1.
    by rewrite lookup_insert_ne, lookup_insert_eq in Hg. }
  assert (h !! g = None) as Hg0.
  { subst h2 h1. by rewrite !lookup_insert_ne in Hg. }
  split; [|done].
  unfold install_helpers.
  erewrite bind_normal by reflexivity. fold f h1.
  erewrite bind_normal
    by (apply set_prop_ref; subst h1; by rewrite lookup_insert_ne).
  fold h2. erewrite bind_normal by reflexivity. fold g h3.
  apply set_prop_ref. subst h3 h2. by rewrite lookup_insert_ne, lookup_insert_eq.
Qed.

(** X19: on a RAML object, the default renderer first stores two new
    function objects as [securitySchemeWithName] and [renderSecuredBy] of
    that very object, keeping its other properties and every other object,
    and only then expands and renders: the expander sees the helpers, and the
    template is rendered with what the expander returns. *)
Theorem processRamlObj_installs_helpers mainTemplate templatesPath r ro (h : store) :
  h !! r = Some ro →
  ∃ f g (h4 : store),
    processRamlObj mainTemplate templatesPath (Ref r) h
    = render_template mainTemplate templatesPath (Ref r) h4
    ∧ h !! f = None ∧ h !! g = None ∧ f ≠ g
    ∧ fun_code h4 (Ref f) = Some (HelperCode SecuritySchemeWithName)
    ∧ fun_code h4 (Ref g) = Some (HelperCode RenderSecuredBy)
    ∧ field h4 r "securitySchemeWithName" = Ref f
    ∧ field h4 r "renderSecuredBy" = Ref g
    ∧ (∀ name, name ≠ "securitySchemeWithName" → name ≠ "renderSecuredBy" →
         field h4 r name = field h r name)
    ∧ ∀ l, l ≠ r → is_Some (h !! l) → h4 !! l = h !! l.
Proof.
  intros Hr. destruct (install_helpers_ref _ _ _ Hr) as (Hinstall & Hrf & Hrg & Hgf & Hf & Hg).
  eexists _, _, _. split.
  { rewrite processRamlObj_stages. by erewrite bind_normal by exact Hinstall. }
  split; [exact Hf|]. split; [exact Hg|]. split; [done|].
  split.
  { unfold fun_code. rewrite lookup_insert_ne, lookup_insert_ne by done.
    by rewrite lookup_insert_ne, lookup_insert_eq by done. }
  split.
  { unfold fun_code. by rewrite lookup_insert_ne, lookup_insert_eq by done. }
  split.
  { unfold field. rewrite lookup_insert_eq. simpl.
    by rewrite lookup_insert_ne, lookup_insert_eq. }
  split; [apply field_with_prop|].
  split.
  { intros name Hname1 Hname2. unfold field. rewrite lookup_insert_eq, Hr. simpl.
    by rewrite !lookup_insert_ne. }
  intros l Hl [o Hlo].
  rewrite !lookup_insert_ne; [done|congruence..].
Qed.


(** X21: what the expander or the template engine throws is thrown by the
    default renderer as it is: no promise is made and nothing is wrapped;
    when the expander throws, the template is not rendered. *)
Theorem processRamlObj_passes_failures mainTemplate templatesPath ramlObj res (h h4 h5 : store) :
  install_helpers ramlObj h = (Normal (), h4) →
  expandJsonSchemas ramlObj h4 = (res, h5) →
  match res with
  | Throw E => processRamlObj mainTemplate templatesPath ramlObj h = (Throw E, h5)
  | Normal data =>
      ∀ E (h6 : store),
        env_render
          (markdown_register (nunjucks_configure templatesPath false) (marked render_table))
          mainTemplate data h5 = (Throw E, h6) →
        processRamlObj mainTemplate templatesPath ramlObj h = (Throw E, h6)
  end.
Proof.
  intros Hinstall Hexpand. rewrite processRamlObj_stages.
  erewrite bind_normal by exact Hinstall. unfold render_template.
  destruct res as [data|E].
  - intros E h6 Hrender. erewrite bind_normal by exact Hexpand.
    by apply bind_throw.
  - by apply bind_throw.
Qed.

(** X22: only an error handed to the callback is wrapped: what the minifier
    throws is thrown by the default post-processor as it is, and when the
    minifier never calls back the promise stays pending. *)
Theorem postProcessHtml_unsettled html res (h h1 : store) :
  minimize_parse true html h = (res, h1) →
  match res with
  | Throw E => postProcessHtml html h = (Throw E, h1)
  | Normal None => postProcessHtml html h = (Normal (Promised Pending), h1)
  | Normal (Some _) => True
  end.
Proof.
  intros Hmin. unfold postProcessHtml. destruct res as [[called|]|E]; [done| |].
  - by erewrite bind_normal by exact Hmin.
  - by apply bind_throw.
Qed.

(** X23: with the two default callables as configuration, [render] parses,
    attaches the configuration, installs the helpers, expands, renders the
    template, replaces the quote entities and settles as the default
    post-processor does on that text. *)
Theorem render_default_pipeline source c o r ro mainTemplate templatesPath data emitted
    (h h2 h3 h4 h5 h6 : store) :
  h !! c = Some o →
  raml2obj_parse source (<[c := with_prop "raml2HtmlVersion" (Str version) o]> h)
  = (Normal (Promised (Fulfilled (Ref r))), h2) →
  h2 !! r = Some ro →
  h3 = <[r := with_prop "config" (Ref c) ro]> h2 →
  fun_code h3 (field h3 c "processRamlObj")
  = Some (ProcessRamlObjCode mainTemplate templatesPath) →
  install_helpers (Ref r) h3 = (Normal (), h4) →
  expandJsonSchemas (Ref r) h4 = (Normal data, h5) →
  env_render
    (markdown_register (nunjucks_configure templatesPath false) (marked render_table))
    mainTemplate data h5 = (Normal emitted, h6) →
  fun_code h6 (field h6 c "postProcessHtml") = Some PostProcessHtmlCode →
  render source (Ref c) h = settle (postProcessHtml (Str (unescape_quotes emitted)) h6).
Proof.
  intros Hc Hparse Hr -> Hcode Hinstall Hexpand Hrender Hgcode.
  rewrite (render_resolved _ _ _ _ _ _ Hc Hparse), (on_parsed_ref _ _ _ _ Hr).
  rewrite dispatch_call by (by eapply fun_code_truthy).
  assert (apply (ProcessRamlObjCode mainTemplate templatesPath) (Ref c) (Ref r)
            (<[r := with_prop "config" (Ref c) ro]> h2)
          = (Normal (Promised (Fulfilled (Str (unescape_quotes emitted)))), h6)) as Happly.
  { cbn [apply]. rewrite processRamlObj_stages.
    erewrite bind_normal by exact Hinstall. unfold render_template.
    erewrite bind_normal by exact Hexpand.
    by erewrite bind_normal by exact Hrender. }
  erewrite bind_normal by (rewrite (call_code _ _ _ _ _ Hcode); exact Happly).
  unfold then_, on_rendered. unfold mbind at 1, M_bind at 1.
  erewrite bind_normal by reflexivity.
  rewrite (fun_code_truthy _ _ _ Hgcode), (call_code _ _ _ _ _ Hgcode).
  cbn [apply].
  by destruct (postProcessHtml _ _) as [[[v|p]|e] h7].
Qed.

End More.

Lemma render_absent_config_witness :
  ∃ r, (render (H := Demo.collaborators) (Str "api.raml") Undef Demo.bare_store).1
       = Normal (Fulfilled (Ref r)).
Proof.
  epose proof (render_absent_config (H := Demo.collaborators) (Str "api.raml") Undef
                 _ _ _ Demo.bare_store _ eq_refl eq_refl eq_refl eq_refl) as Hw.
  destruct Hw as (_ & Hrender & _); [vm_compute; discriminate|reflexivity|].
  rewrite Hrender. eauto.
Defined.

Lemma render_primitive_config_throws_witness :
  (render (H := Demo.collaborators) (Str "api.raml") (Str "config.json") Demo.bare_store).1
  = Throw (Ref 2%positive).
Proof.
  by rewrite (render_primitive_config_throws (H := Demo.collaborators)
                (Str "api.raml") (Str "config.json") Demo.bare_store eq_refl).
Defined.

Lemma render_skips_post_processor_witness :
  ∃ r, (render (H := Demo.collaborators) (Str "api.raml") (Ref 1%positive)
          Demo.post_only_store).1
       = Normal (Fulfilled (Ref r)).
Proof.
  epose proof (render_skips_post_processor (H := Demo.collaborators) (Str "api.raml")
                 1%positive _ _ _ Demo.post_only_store _ eq_refl eq_refl eq_refl eq_refl)
    as Hw.
  rewrite Hw. eauto.
Defined.

Lemma render_renderer_failure_witness :
  (render (H := Demo.failing) (Str "api.raml") (Ref 1%positive) Demo.full_store).1
  = Normal (Rejected (Str "no template")).
Proof.
  epose proof (render_renderer_failure (H := Demo.failing) (Str "api.raml")
                 1%positive _ _ _ _ _ _ Demo.full_store _ _ _
                 eq_refl eq_refl eq_refl eq_refl eq_refl eq_refl eq_refl eq_refl) as Hw.
  by rewrite Hw.
Defined.

Lemma render_renderer_not_function_witness :
  ∃ e, (render (H := Demo.collaborators) (Str "api.raml") (Ref 1%positive)
          Demo.number_store).1
       = Normal (Rejected (Ref e)).
Proof.
  epose proof (render_renderer_not_function (H := Demo.collaborators) (Str "api.raml")
                 1%positive _ _ _ Demo.number_store _ _
                 eq_refl eq_refl eq_refl eq_refl eq_refl eq_refl) as Hw.
  rewrite Hw. eauto.
Defined.

Lemma render_post_processor_not_function_witness :
  ∃ e, (render (H := Demo.collaborators) (Str "api.raml") (Ref 1%positive)
          Demo.text_store).1
       = Normal (Rejected (Ref e)).
Proof.
  epose proof (render_post_processor_not_function (H := Demo.collaborators)
                 (Str "api.raml") 1%positive _ _ _ _ _ Demo.text_store _ _ _
                 eq_refl eq_refl eq_refl eq_refl eq_refl eq_refl eq_refl eq_refl eq_refl)
    as Hw.
  rewrite Hw. eauto.
Defined.

Lemma render_parsed_primitive_witness :
  ∃ e, (render (H := Demo.failing) (Str "") (Ref 1%positive) Demo.bare_store).1
       = Normal (Rejected (Ref e)).
Proof.
  epose proof (render_parsed_primitive (H := Demo.failing) (Str "") 1%positive _ _
                 Demo.bare_store _ eq_refl eq_refl eq_refl) as Hw.
  rewrite Hw. eauto.
Defined.

Lemma processRamlObj_installs_helpers_witness :
  ∃ f g (h4 : store),
    f ≠ g
    ∧ field h4 1%positive "securitySchemeWithName" = Ref f
    ∧ field h4 1%positive "renderSecuredBy" = Ref g.
Proof.
  destruct (processRamlObj_installs_helpers (H := Demo.collaborators)
              (Str "index.nunjucks") (Str ".") 1%positive _ Demo.bare_store eq_refl)
    as (f & g & h4 & _ & _ & _ & Hfg & _ & _ & Hf & Hg & _).
  by exists f, g, h4.
Defined.


Lemma processRamlObj_passes_failures_witness :
  (processRamlObj (H := Demo.failing) (Str "index.nunjucks") (Str ".") (Ref 1%positive)
     Demo.bare_store).1
  = Throw (Str "Template render error").
Proof.
  epose proof (processRamlObj_passes_failures (H := Demo.failing)
                 (Str "index.nunjucks") (Str ".") (Ref 1%positive) _ Demo.bare_store _ _
                 eq_refl eq_refl) as Hw.
  cbn beta iota in Hw. by erewrite Hw by reflexivity.
Defined.

Lemma postProcessHtml_unsettled_witness :
  (postProcessHtml (H := Demo.failing) (Str "<p> a </p>") Demo.bare_store).1
  = Normal (Promised Pending)
  ∧ (postProcessHtml (H := Demo.failing) (Str "") Demo.bare_store).1
    = Throw (Str "nothing to parse").
Proof.
  split.
  - epose proof (postProcessHtml_unsettled (H := Demo.failing) (Str "<p> a </p>") _
                   Demo.bare_store _ eq_refl) as Hw.
    cbn beta iota in Hw. by rewrite Hw.
  - epose proof (postProcessHtml_unsettled (H := Demo.failing) (Str "") _
                   Demo.bare_store _ eq_refl) as Hw.
    cbn beta iota in Hw. by rewrite Hw.
Defined.

Lemma render_default_pipeline_witness :
  (render (H := Demo.collaborators) (Str "api.raml") (Ref 3%positive)
     Demo.default_built.2).1
  = Normal (Fulfilled (Str ("<a title=" +:+ dquote +:+ "x" +:+ dquote +:+ ">"))).
Proof.
  epose proof (render_default_pipeline (H := Demo.collaborators) (Str "api.raml")
                 3%positive _ _ _ _ _ _ _ Demo.default_built.2 _ _ _ _ _
                 eq_refl eq_refl eq_refl eq_refl eq_refl eq_refl eq_refl eq_refl eq_refl)
    as Hw.
  by rewrite Hw.
Defined.

End PipelineMore.
